(** * Silver: the native window-overlay module

    A shallow embedding of [src/native/window-overlay.cc], the N-API addon
    that sets an NSWindow's collection behavior, and the properties of its
    two exported functions, [setWindowCollectionBehavior] and
    [getNSWindowFromHandle].

    The C++/Objective-C code talks to two external components, which are
    modelled here by what their documentation says:
    - node-addon-api ([napi.h]): JavaScript values, [Uint32Value],
      [Number::New], [Buffer::Data], and the two ways a failed N-API call is
      reported (a C++ exception, or a pending JavaScript exception when the
      addon is built with C++ exceptions disabled);
    - AppKit: the application's window objects, [-windows],
      [-windowWithWindowNumber:], [-windowNumber] and
      [-setCollectionBehavior:]. *)

From Stdlib Require Import ZArith Lia Bool String.
From Stdlib.Strings Require Import Byte.
From stdpp Require Import base option list strings gmap.

Local Open Scope Z_scope.

(** ** JavaScript values *)

(** A JavaScript number: not-a-number, an infinity, or the finite value
    [m * 2^e] (every finite double has this form). *)
Inductive JsNumber :=
  | NaN
  | Infinity (negative : bool)
  | Finite (m e : Z).

Inductive napi_value :=
  | Undefined
  | Null
  | Boolean (b : bool)
  | Number (x : JsNumber)
  | String (s : string)
  | Buffer (bytes : list byte).

Inductive napi_status := napi_ok | napi_invalid_arg | napi_number_expected.

Inductive JsError :=
  | TypeError (message : string)
  | NapiError (status : napi_status).

(** The integer part of [m * 2^e], rounded toward zero. *)
Definition truncate (m e : Z) : Z :=
  if 0 <=? e then m * 2 ^ e else Z.quot m (2 ^ (- e)).

(** ECMAScript ToUint32, which [napi_get_value_uint32] applies to a number:
    non-finite values give 0, finite ones are truncated and reduced
    modulo 2^32. *)
Definition ToUint32 (x : JsNumber) : Z :=
  match x with
  | Finite m e => truncate m e mod 2 ^ 32
  | _ => 0
  end.

Definition napi_get_value_uint32 (v : napi_value) : napi_status * Z :=
  match v with
  | Number x => (napi_ok, ToUint32 x)
  | _ => (napi_number_expected, 0)
  end.

(** The conversion of a 64-bit integer to a double: exact up to 53
    significant bits, round-to-nearest-even beyond. *)
Definition double_of_integer (n : Z) : JsNumber :=
  let a := Z.abs n in
  let k := Z.log2 a - 52 in
  if k <=? 0 then Finite n 0
  else
    let q := Z.shiftr a k in
    let r := Z.land a (Z.ones k) in
    let half := 2 ^ (k - 1) in
    let q' := if (half <? r) || ((r =? half) && Z.odd q) then q + 1 else q in
    Finite (Z.sgn n * q') k.

(** The integer a JavaScript number denotes, when it denotes one. *)
Definition integer_value (x : JsNumber) : option Z :=
  match x with
  | Finite m e =>
      if 0 <=? e then Some (m * 2 ^ e)
      else if m mod 2 ^ (- e) =? 0 then Some (m / 2 ^ (- e))
      else None
  | _ => None
  end.

(** ** C integer conversions *)

(** [uint32_t] to [long] / [NSInteger] (64-bit, two's complement). *)
Definition NSInteger_of (z : Z) : Z := (z + 2 ^ 63) mod 2 ^ 64 - 2 ^ 63.

(** [uint32_t] to [unsigned long] / [NSUInteger] (64-bit). *)
Definition NSUInteger_of (z : Z) : Z := z mod 2 ^ 64.

(** ** AppKit state *)

(** An NSWindow object, reduced to the two properties the module touches. *)
Record NSWindow := mkNSWindow {
  windowNumber : Z;
  collectionBehavior : Z
}.

(** Object pointers are addresses; [nil_ptr] is Objective-C's [nil]. *)
Definition nil_ptr : Z := 0.

(** The shared NSApplication: the window objects that are alive (by
    address), the array [-windows] answers with, and the table
    [-windowWithWindowNumber:] consults. *)
Record NSApplication := mkNSApplication {
  objects : gmap Z NSWindow;
  windows : list Z;
  windowTable : gmap Z Z
}.

(** ** Memory read through the handle buffer *)

(** The integer a run of bytes holds, least significant byte first. *)
Fixpoint little_endian (bs : list byte) : Z :=
  match bs with
  | [] => 0
  | b :: rest => Z.of_N (Byte.to_N b) + 256 * little_endian rest
  end.

(** [*((NSWindow** )ptr)]: a pointer-sized little-endian load. [ptr] is
    either null ([None]) or points to a region holding [bs]; loading from
    null or past the end of the region is undefined behaviour ([None]). *)
Definition load_pointer (ptr : option (list byte)) : option Z :=
  match ptr with
  | None => None
  | Some bs => if (length bs <? 8)%nat then None else Some (little_endian (take 8 bs))
  end.

(** ** The monad of a native callback *)

(** What one statement does: go on with a value, [return] from the
    callback, raise a C++ exception, or run into undefined behaviour. *)
Inductive step (A : Type) :=
  | Next (a : A)
  | Return (v : napi_value)
  | Raise (e : JsError)
  | UndefinedBehaviour.
Arguments Next {A} a.
Arguments Return {A} v.
Arguments Raise {A} e.
Arguments UndefinedBehaviour {A}.

(** The state a callback runs in: the application, and the JavaScript
    exception pending in its [Napi::Env], if any. *)
Record CallState := mkCallState {
  app : NSApplication;
  pending : option JsError
}.

Definition M (A : Type) : Type := CallState → step A * CallState.

Definition ret {A} (a : A) : M A := λ s, (Next a, s).

Definition bind {A B} (m : M A) (k : A → M B) : M B := λ s,
  match m s with
  | (Next a, s') => k a s'
  | (Return v, s') => (Return v, s')
  | (Raise e, s') => (Raise e, s')
  | (UndefinedBehaviour, s') => (UndefinedBehaviour, s')
  end.

Declare Scope callback_scope.
Delimit Scope callback_scope with callback.
Notation "x <- m ;; k" := (bind m (λ x, k))
  (at level 100, m at next level, right associativity) : callback_scope.
Notation "m ;; k" := (bind m (λ _, k))
  (at level 100, right associativity) : callback_scope.
Local Open Scope callback_scope.

Definition return_ {A} (v : napi_value) : M A := λ s, (Return v, s).
Definition raise {A} (e : JsError) : M A := λ s, (Raise e, s).
Definition undefined_behaviour {A} : M A := λ s, (UndefinedBehaviour, s).

(** [Napi::Error::ThrowAsJavaScriptException]: the exception becomes
    pending and the native code goes on; an exception that is already
    pending stays. *)
Definition ThrowAsJavaScriptException (e : JsError) : M unit := λ s,
  (Next tt, {| app := app s;
               pending := match pending s with
                          | Some earlier => Some earlier
                          | None => Some e
                          end |}).

(** *** AppKit messages *)

(** [[[NSApplication sharedApplication] windows]] *)
Definition NSApp_windows : M (list Z) := λ s, (Next (windows (app s)), s).

(** [[NSApp windowWithWindowNumber:n]], [nil] when the table has no entry. *)
Definition NSApp_windowWithWindowNumber (n : Z) : M Z := λ s,
  (Next (match windowTable (app s) !! n with
         | Some window => window
         | None => nil_ptr
         end), s).

(** [[window windowNumber]]: a message to [nil] answers 0, a message to an
    address that holds no live object is undefined behaviour. *)
Definition msg_windowNumber (window : Z) : M Z := λ s,
  if window =? nil_ptr then (Next 0, s)
  else match objects (app s) !! window with
       | Some w => (Next (windowNumber w), s)
       | None => (UndefinedBehaviour, s)
       end.

Definition with_behavior (behavior : Z) (w : NSWindow) : NSWindow :=
  {| windowNumber := windowNumber w; collectionBehavior := behavior |}.

Definition store_behavior (window behavior : Z) (w : NSWindow)
    (a : NSApplication) : NSApplication :=
  {| objects := <[window := with_behavior behavior w]> (objects a);
     windows := windows a;
     windowTable := windowTable a |}.

(** [[window setCollectionBehavior:behavior]]: the object's property is
    overwritten in place. *)
Definition msg_setCollectionBehavior (window behavior : Z) : M unit := λ s,
  if window =? nil_ptr then (Next tt, s)
  else match objects (app s) !! window with
       | Some w =>
           (Next tt, {| app := store_behavior window behavior w (app s);
                        pending := pending s |})
       | None => (UndefinedBehaviour, s)
       end.

(** [*((NSWindow** )ptr)] *)
Definition deref_window (ptr : option (list byte)) : M Z :=
  match load_pointer ptr with
  | Some window => ret window
  | None => undefined_behaviour
  end.

(** What JavaScript sees of a call. *)
Inductive outcome :=
  | Returned (v : napi_value)
  | Threw (e : JsError)
  | Fault.

(** Running a callback: a pending JavaScript exception replaces the value
    the native code returned. *)
Definition call (body : M napi_value) (a : NSApplication)
    : outcome * NSApplication :=
  let '(r, s) := body {| app := a; pending := None |} in
  (match r with
   | Next v | Return v =>
       match pending s with
       | Some e => Threw e
       | None => Returned v
       end
   | Raise e => Threw e
   | UndefinedBehaviour => Fault
   end, app s).

Section Addon.

(** Whether node-addon-api was built with C++ exceptions
    ([NAPI_CPP_EXCEPTIONS]) or without ([NAPI_DISABLE_CPP_EXCEPTIONS]). *)
Variable cpp_exceptions : bool.

(** [NAPI_THROW_IF_FAILED(env, status, dflt)] on a failed status: a C++
    exception, or a pending JavaScript exception and the default value. *)
Definition NAPI_THROW {A} (status : napi_status) (dflt : A) : M A :=
  if cpp_exceptions then raise (NapiError status)
  else (ThrowAsJavaScriptException (NapiError status);; ret dflt).

(** [value.As<Napi::Number>().Uint32Value()] *)
Definition Uint32Value (v : napi_value) : M Z :=
  match napi_get_value_uint32 v with
  | (napi_ok, result) => ret result
  | (status, _) => NAPI_THROW status 0
  end.

(** [value.As<Napi::Buffer<void>>().Data()] *)
Definition Buffer_Data (v : napi_value) : M (option (list byte)) :=
  match v with
  | Buffer bytes => ret (Some bytes)
  | _ => NAPI_THROW napi_invalid_arg None
  end.

(** Lines 25-32: [for (NSWindow* window in windows) { ... }] *)
Fixpoint for_window_in (ws : list Z) (windowId behavior : Z) : M unit :=
  match ws with
  | [] => ret tt
  | window :: rest =>
      matched <- (if window =? nil_ptr then ret false
                  else (n <- msg_windowNumber window;;
                        ret (n =? NSInteger_of windowId)));;
      if matched : bool then
        (msg_setCollectionBehavior window behavior;;
         return_ (Boolean true))
      else for_window_in rest windowId behavior
  end.

(** Lines 8-43. *)
Definition SetWindowCollectionBehavior_body (info : list napi_value)
    : M napi_value :=
  if (length info <? 2)%nat then
    (ThrowAsJavaScriptException
       (TypeError "Expected 2 arguments: windowId and behavior");;
     return_ Null)
  else
    (windowId <- Uint32Value (nth 0 info Undefined);;
     behavior32 <- Uint32Value (nth 1 info Undefined);;
     let behavior := NSUInteger_of behavior32 in
     ws <- NSApp_windows;;
     for_window_in ws windowId behavior;;
     targetWindow <- NSApp_windowWithWindowNumber (NSInteger_of windowId);;
     if negb (targetWindow =? nil_ptr) then
       (msg_setCollectionBehavior targetWindow behavior;;
        return_ (Boolean true))
     else return_ (Boolean false)).

Definition SetWindowCollectionBehavior (info : list napi_value)
    (a : NSApplication) : outcome * NSApplication :=
  call (SetWindowCollectionBehavior_body info) a.

(** Lines 46-68. *)
Definition GetNSWindowFromHandle_body (info : list napi_value)
    : M napi_value :=
  if (length info <? 1)%nat then return_ Null
  else
    (ptr <- Buffer_Data (nth 0 info Undefined);;
     window <- deref_window ptr;;
     if negb (window =? nil_ptr) then
       (n <- msg_windowNumber window;;
        return_ (Number (double_of_integer n)))
     else return_ Null).

Definition GetNSWindowFromHandle (info : list napi_value)
    (a : NSApplication) : outcome * NSApplication :=
  call (GetNSWindowFromHandle_body info) a.

End Addon.

(** ** The window resolver, as the specification words it *)

(** Whether [window] is a live object carrying the number [id]. *)
Definition has_number (a : NSApplication) (id window : Z) : bool :=
  match objects a !! window with
  | Some w => negb (window =? nil_ptr) && (windowNumber w =? id)
  | None => false
  end.

(** Specification 4.1: a linear scan of the application's windows, first
    match wins; then the registry lookup; else not found. *)
Definition resolve (a : NSApplication) (id : Z) : option Z :=
  match List.find (has_number a id) (windows a) with
  | Some window => Some window
  | None =>
      match windowTable a !! id with
      | Some window => if window =? nil_ptr then None else Some window
      | None => None
      end
  end.

(** Specification 4.2: the flags of the window at [window] replaced by
    [mask]. *)
Definition applyBehavior (window mask : Z) (a : NSApplication) : NSApplication :=
  match objects a !! window with
  | Some w => store_behavior window mask w a
  | None => a
  end.

(** ** Invariants of the platform state *)

(** The array [-windows] retains its elements: each is a live object. *)
Definition windows_live (a : NSApplication) : Prop :=
  Forall (λ window, window = nil_ptr ∨ is_Some (objects a !! window)) (windows a).

(** The registry answers with live objects only. *)
Definition registry_live (a : NSApplication) : Prop :=
  ∀ n window, windowTable a !! n = Some window → window ≠ nil_ptr →
    is_Some (objects a !! window).

(** The registry answers a number with a window carrying that number. *)
Definition registry_sound (a : NSApplication) : Prop :=
  ∀ n window, windowTable a !! n = Some window → window ≠ nil_ptr →
    ∃ w, objects a !! window = Some w ∧ windowNumber w = n.

(** ** Sample states *)

(** Window A (number 42) at address 4096 and window B (number 7) at
    address 8192, both listed and registered, with flags 1 and 4. *)
Definition two_windows : NSApplication :=
  {| objects := <[4096 := mkNSWindow 42 1]> (<[8192 := mkNSWindow 7 4]> ∅);
     windows := [4096; 8192];
     windowTable := <[42 := 4096]> (<[7 := 8192]> ∅) |}.

(** The handle buffer of window A: its address, little-endian. *)
Definition handle_A : list byte := [x00; x10; x00; x00; x00; x00; x00; x00].

(** One window that has no window device yet: its number is -1. *)
Definition deferred_window : NSApplication :=
  {| objects := <[4096 := mkNSWindow (-1) 0]> ∅;
     windows := [4096];
     windowTable := ∅ |}.

Definition handle_deferred : list byte := handle_A.

(** ** Identifiers

    A well-formed window identifier is a number holding a positive integer
    that fits [uint32_t]; anything else passed in the identifier position
    is malformed, or zero. *)
Definition malformed_or_zero (v : napi_value) : bool :=
  match v with
  | Number x =>
      match integer_value x with
      | Some z => negb ((0 <? z) && (z <? 2 ^ 32))
      | None => true
      end
  | _ => true
  end.

(** The window at [window] is the only listed one carrying its number
    (window numbers are unique by the platform's contract). *)
Definition number_unique (a : NSApplication) (window : Z) (w : NSWindow) : Prop :=
  ∀ other w',
    other ∈ windows a → objects a !! other = Some w' →
    windowNumber w' = windowNumber w → other = window.

(** The round trip as the specification states it, for every live window
    of the application: decoding a buffer that embeds a pointer to the
    window yields its number, and that number, passed to
    [setWindowCollectionBehavior], resolves to the same window. *)
Definition roundtrip_at (cpp : bool) (a : NSApplication) (window : Z)
    (w : NSWindow) (bytes : list byte) (mask : JsNumber) : Prop :=
  ∃ n,
    GetNSWindowFromHandle cpp [Buffer bytes] a = (Returned (Number n), a)
    ∧ integer_value n = Some (windowNumber w)
    ∧ resolve a (ToUint32 n) = Some window
    ∧ SetWindowCollectionBehavior cpp [Number n; Number mask] a
      = (Returned (Boolean true), applyBehavior window (ToUint32 mask) a).

(** ** Module registration *)

(** What a property of the [exports] object holds: a plain value, or a
    function wrapping a native callback ([Napi::Function::New]). *)
Inductive property :=
  | Plain (v : napi_value)
  | Function (callback : list napi_value → NSApplication → outcome * NSApplication).

(** Lines 70-80: [Init] sets two properties on [exports] and returns it. *)
Definition Init (cpp_exceptions : bool) (exports : gmap string property)
    : gmap string property :=
  let exports :=
    <["setWindowCollectionBehavior" :=
        Function (SetWindowCollectionBehavior cpp_exceptions)]> exports in
  let exports :=
    <["getNSWindowFromHandle" :=
        Function (GetNSWindowFromHandle cpp_exceptions)]> exports in
  exports.

(** Line 82: [NODE_API_MODULE(window_overlay, Init)], the module object
    is [Init] run on a fresh [exports]. *)
Definition window_overlay (cpp_exceptions : bool) : gmap string property :=
  Init cpp_exceptions ∅.

(** ** Arguments that are not numbers *)

Definition is_number (v : napi_value) : bool :=
  match v with
  | Number _ => true
  | _ => false
  end.

(** The number [Uint32Value] goes on with when C++ exceptions are
    disabled: the argument itself, or 0 after a failed conversion. *)
Definition coerced (v : napi_value) : JsNumber :=
  match v with
  | Number x => x
  | _ => Finite 0 0
  end.


(** The call state once an error has been left pending. *)
Definition with_pending (e : JsError) (s : CallState) : CallState :=
  {| app := app s;
     pending := match pending s with
                | Some earlier => Some earlier
                | None => Some e
                end |}.

(** ** Handles *)

Definition is_buffer (v : napi_value) : bool :=
  match v with
  | Buffer _ => true
  | _ => false
  end.

(** One window whose number, 2^53 + 1, no double represents. *)
Definition wide_number_window : NSApplication :=
  {| objects := <[4096 := mkNSWindow 9007199254740993 0]> ∅;
     windows := [4096];
     windowTable := ∅ |}.

(** ** Tactics for concrete states *)

Ltac solve_windows_live :=
  unfold windows_live; cbn [windows objects two_windows deferred_window];
  repeat (constructor; [right; eexists; reflexivity |]); constructor.

Ltac solve_registry_sound :=
  let n := fresh "n" in
  let window := fresh "window" in
  let Htab := fresh "Htab" in
  intros n window Htab _; cbn [windowTable objects two_windows deferred_window] in *;
  repeat
    (let E := fresh "E" in
     destruct (decide (n = ltac:(match type of Htab with
                                 | <[?k := _]> _ !! _ = _ => exact k
                                 end))) as [-> | E];
     [ rewrite lookup_insert_eq in Htab; injection Htab as <-;
       eexists; split; reflexivity
     | rewrite lookup_insert_ne in Htab by congruence ]);
  rewrite lookup_empty in Htab; discriminate.

(** ** Arithmetic of the conversions *)

Lemma ToUint32_range (x : JsNumber) : 0 ≤ ToUint32 x < 2 ^ 32.
Proof.
  destruct x as [| neg | m e]; simpl; try lia.
  apply Z.mod_pos_bound. lia.
Qed.

Lemma NSInteger_of_uint32 (z : Z) : 0 ≤ z < 2 ^ 32 → NSInteger_of z = z.
Proof.
  intros Hz. unfold NSInteger_of.
  rewrite Z.mod_small; lia.
Qed.

Lemma NSUInteger_of_uint32 (z : Z) : 0 ≤ z < 2 ^ 32 → NSUInteger_of z = z.
Proof.
  intros Hz. unfold NSUInteger_of.
  apply Z.mod_small. lia.
Qed.

Lemma truncate_integer (x : JsNumber) (z : Z) :
  integer_value x = Some z →
  ∃ m e, x = Finite m e ∧ truncate m e = z.
Proof.
  destruct x as [| neg | m e]; simpl; try discriminate.
  intros H. exists m, e. split; [reflexivity |].
  unfold truncate. destruct (0 <=? e) eqn:He.
  - congruence.
  - apply Z.leb_gt in He.
    destruct (m mod 2 ^ (- e) =? 0) eqn:Hd; [| discriminate].
    apply Z.eqb_eq in Hd. injection H as <-.
    assert (Hpos : 0 < 2 ^ (- e)) by (apply Z.pow_pos_nonneg; lia).
    rewrite (Z.div_mod m (2 ^ (- e))) at 1 by lia.
    rewrite Hd, Z.add_0_r, Z.mul_comm.
    apply Z.quot_mul. lia.
Qed.

Lemma ToUint32_integer (x : JsNumber) (z : Z) :
  integer_value x = Some z → ToUint32 x = z mod 2 ^ 32.
Proof.
  intros H. destruct (truncate_integer x z H) as (m & e & -> & <-).
  reflexivity.
Qed.

Lemma ToUint32_uint32 (x : JsNumber) (z : Z) :
  integer_value x = Some z → 0 ≤ z < 2 ^ 32 → ToUint32 x = z.
Proof.
  intros H Hz. rewrite (ToUint32_integer x z H).
  apply Z.mod_small, Hz.
Qed.

Lemma double_of_integer_exact (n : Z) :
  Z.abs n < 2 ^ 53 → double_of_integer n = Finite n 0.
Proof.
  intros Hn. unfold double_of_integer.
  assert (Hlog : Z.log2 (Z.abs n) - 52 ≤ 0).
  { destruct (Z.eq_dec (Z.abs n) 0) as [-> | Hnz]; [simpl; lia |].
    assert (Z.log2 (Z.abs n) < 53) by (apply Z.log2_lt_pow2; lia).
    lia. }
  apply Z.leb_le in Hlog. rewrite Hlog. reflexivity.
Qed.

(** ** The scan of lines 25-32 *)

Lemma has_number_live (a : NSApplication) (id window : Z) :
  has_number a id window = true →
  window ≠ nil_ptr ∧ ∃ w, objects a !! window = Some w ∧ windowNumber w = id.
Proof.
  unfold has_number. destruct (objects a !! window) as [w |]; [| discriminate].
  intros [Hnil Hnum]%andb_true_iff.
  apply negb_true_iff, Z.eqb_neq in Hnil. apply Z.eqb_eq in Hnum.
  split; [exact Hnil | exists w; split; [reflexivity | exact Hnum]].
Qed.

(** One iteration whose window matches: the flags are stored and the
    callback returns [true]. *)
Lemma for_window_in_hit (window : Z) (rest : list Z) (id behavior : Z)
    (s : CallState) (w : NSWindow) :
  0 ≤ id < 2 ^ 32 →
  has_number (app s) id window = true →
  objects (app s) !! window = Some w →
  for_window_in (window :: rest) id behavior s =
    (Return (Boolean true),
     {| app := store_behavior window behavior w (app s); pending := pending s |}).
Proof.
  intros Hid Hhit Hw. destruct (has_number_live _ _ _ Hhit) as (Hnil & w' & Hw' & Hnum).
  assert (w' = w) as -> by congruence.
  apply Z.eqb_neq in Hnil.
  cbn [for_window_in]. unfold bind, msg_windowNumber, msg_setCollectionBehavior, ret, return_.
  apply Z.eqb_eq in Hnum.
  rewrite Hnil, Hw, (NSInteger_of_uint32 id Hid), Hnum. cbn [app].
  rewrite Hw. reflexivity.
Qed.

(** One iteration over a live window that does not match: the scan goes on. *)
Lemma for_window_in_miss (window : Z) (rest : list Z) (id behavior : Z)
    (s : CallState) :
  0 ≤ id < 2 ^ 32 →
  window = nil_ptr ∨ is_Some (objects (app s) !! window) →
  has_number (app s) id window = false →
  for_window_in (window :: rest) id behavior s = for_window_in rest id behavior s.
Proof.
  intros Hid Hlive Hmiss.
  cbn [for_window_in]. unfold bind at 1.
  destruct (window =? nil_ptr) eqn:Hnil; [reflexivity |].
  destruct Hlive as [-> | [w Hw]]; [discriminate |].
  unfold has_number in Hmiss. rewrite Hw, Hnil in Hmiss. simpl in Hmiss.
  unfold bind, msg_windowNumber, ret.
  rewrite Hnil, Hw, (NSInteger_of_uint32 id Hid), Hmiss. reflexivity.
Qed.

(** The scan over live windows is the specification's first-match search. *)
Lemma for_window_in_find (ws : list Z) (id behavior : Z) (s : CallState) :
  0 ≤ id < 2 ^ 32 →
  Forall (λ window, window = nil_ptr ∨ is_Some (objects (app s) !! window)) ws →
  for_window_in ws id behavior s =
    match List.find (has_number (app s) id) ws with
    | Some window =>
        (Return (Boolean true),
         {| app := applyBehavior window behavior (app s); pending := pending s |})
    | None => (Next tt, s)
    end.
Proof.
  intros Hid Hlive. induction Hlive as [| window rest Hw Hrest IH].
  - reflexivity.
  - cbn [List.find]. destruct (has_number (app s) id window) eqn:Hhit.
    + destruct (has_number_live _ _ _ Hhit) as (_ & w & Hobj & _).
      rewrite (for_window_in_hit window rest id behavior s w Hid Hhit Hobj).
      unfold applyBehavior. rewrite Hobj. reflexivity.
    + rewrite (for_window_in_miss window rest id behavior s Hid Hw Hhit).
      exact IH.
Qed.

(** Without any assumption on the array, the scan ends in one of three
    ways: nothing matched and nothing changed; the first matching window
    was mutated; or a dangling element was messaged. *)
Lemma for_window_in_cases (ws : list Z) (id behavior : Z) (s : CallState) :
  0 ≤ id < 2 ^ 32 →
  for_window_in ws id behavior s = (Next tt, s)
  ∨ (∃ window w,
        window ∈ ws ∧ window ≠ nil_ptr ∧
        objects (app s) !! window = Some w ∧ windowNumber w = id ∧
        for_window_in ws id behavior s =
          (Return (Boolean true),
           {| app := store_behavior window behavior w (app s);
              pending := pending s |}))
  ∨ for_window_in ws id behavior s = (UndefinedBehaviour, s).
Proof.
  intros Hid. induction ws as [| window rest IH].
  - left. reflexivity.
  - destruct (window =? nil_ptr) eqn:Hnil.
    + assert (Hskip : for_window_in (window :: rest) id behavior s
                      = for_window_in rest id behavior s).
      { apply for_window_in_miss; [exact Hid | left; apply Z.eqb_eq, Hnil |].
        unfold has_number. rewrite Hnil.
        destruct (objects (app s) !! window); reflexivity. }
      rewrite Hskip. destruct IH as [IH | [(q & w & Hin & IH) | IH]].
      * left. exact IH.
      * right. left. exists q, w. split; [apply elem_of_cons; right; exact Hin | exact IH].
      * right. right. exact IH.
    + destruct (objects (app s) !! window) as [w |] eqn:Hobj.
      * destruct (has_number (app s) id window) eqn:Hhit.
        -- right. left. exists window, w.
           destruct (has_number_live _ _ _ Hhit) as (Hne & w' & Hw' & Hnum).
           assert (w' = w) as -> by congruence.
           repeat split; try assumption.
           ++ apply elem_of_cons. left. reflexivity.
           ++ apply for_window_in_hit; assumption.
        -- rewrite (for_window_in_miss window rest id behavior s Hid); try assumption.
           ++ destruct IH as [IH | [(q & w' & Hin & IH) | IH]].
              ** left. exact IH.
              ** right. left. exists q, w'.
                 split; [apply elem_of_cons; right; exact Hin | exact IH].
              ** right. right. exact IH.
           ++ right. exists w. exact Hobj.
      * right. right. cbn [for_window_in]. unfold bind, msg_windowNumber.
        rewrite Hnil, Hobj. reflexivity.
Qed.

(** ** [SetWindowCollectionBehavior] on two numbers *)

Lemma resolve_live (a : NSApplication) (id window : Z) :
  registry_live a → resolve a id = Some window →
  window ≠ nil_ptr ∧ is_Some (objects a !! window).
Proof.
  intros Hreg. unfold resolve.
  destruct (List.find (has_number a id) (windows a)) as [q |] eqn:Hfind.
  - intros [= ->]. apply find_some in Hfind as [_ Hhit].
    destruct (has_number_live _ _ _ Hhit) as (Hne & w & Hw & _).
    split; [exact Hne | exists w; exact Hw].
  - destruct (windowTable a !! id) as [q |] eqn:Htab; [| discriminate].
    destruct (q =? nil_ptr) eqn:Hnil; [discriminate |].
    intros [= ->]. apply Z.eqb_neq in Hnil.
    split; [exact Hnil | exact (Hreg id window Htab Hnil)].
Qed.

(** The callback on two numbers, with the marshalling and the integer
    conversions carried out. *)
Lemma body_numbers (cpp : bool) (id mask : JsNumber) (s : CallState) :
  SetWindowCollectionBehavior_body cpp [Number id; Number mask] s =
    match for_window_in (windows (app s)) (ToUint32 id) (ToUint32 mask) s with
    | (Next _, s') =>
        match windowTable (app s') !! ToUint32 id with
        | Some target =>
            if target =? nil_ptr then (Return (Boolean false), s')
            else match objects (app s') !! target with
                 | Some w =>
                     (Return (Boolean true),
                      {| app := store_behavior target (ToUint32 mask) w (app s');
                         pending := pending s' |})
                 | None => (UndefinedBehaviour, s')
                 end
        | None => (Return (Boolean false), s')
        end
    | (Return v, s') => (Return v, s')
    | (Raise e, s') => (Raise e, s')
    | (UndefinedBehaviour, s') => (UndefinedBehaviour, s')
    end.
Proof.
  pose proof (ToUint32_range id) as Hid. pose proof (ToUint32_range mask) as Hmask.
  unfold SetWindowCollectionBehavior_body, Uint32Value.
  cbn [length Nat.ltb Nat.leb nth napi_get_value_uint32].
  unfold bind at 1. unfold ret at 1. unfold bind at 1. unfold ret at 1.
  unfold bind at 1. unfold NSApp_windows at 1. unfold bind at 1.
  rewrite (NSUInteger_of_uint32 _ Hmask), (NSInteger_of_uint32 _ Hid).
  destruct (for_window_in (windows (app s)) (ToUint32 id) (ToUint32 mask) s)
    as [[[] | v | e |] s']; try reflexivity.
  unfold bind, NSApp_windowWithWindowNumber, msg_setCollectionBehavior, return_.
  destruct (windowTable (app s') !! ToUint32 id) as [target |]; [| reflexivity].
  destruct (target =? nil_ptr); cbn [negb]; [reflexivity |].
  destruct (objects (app s') !! target); reflexivity.
Qed.

Lemma body_resolved (cpp : bool) (id mask : JsNumber) (s : CallState)
    (window : Z) (w : NSWindow) :
  windows_live (app s) →
  resolve (app s) (ToUint32 id) = Some window →
  objects (app s) !! window = Some w →
  SetWindowCollectionBehavior_body cpp [Number id; Number mask] s =
    (Return (Boolean true),
     {| app := store_behavior window (ToUint32 mask) w (app s);
        pending := pending s |}).
Proof.
  intros Hlive Hres Hw. rewrite body_numbers.
  rewrite (for_window_in_find _ _ _ s (ToUint32_range id) Hlive).
  unfold resolve in Hres.
  destruct (List.find (has_number (app s) (ToUint32 id)) (windows (app s))) as [q |].
  - injection Hres as ->. unfold applyBehavior. rewrite Hw. reflexivity.
  - destruct (windowTable (app s) !! ToUint32 id) as [q |]; [| discriminate].
    destruct (q =? nil_ptr); [discriminate |].
    injection Hres as ->. rewrite Hw. reflexivity.
Qed.

Lemma body_unresolved (cpp : bool) (id mask : JsNumber) (s : CallState) :
  windows_live (app s) →
  resolve (app s) (ToUint32 id) = None →
  SetWindowCollectionBehavior_body cpp [Number id; Number mask] s =
    (Return (Boolean false), s).
Proof.
  intros Hlive Hres. rewrite body_numbers.
  rewrite (for_window_in_find _ _ _ s (ToUint32_range id) Hlive).
  unfold resolve in Hres.
  destruct (List.find (has_number (app s) (ToUint32 id)) (windows (app s))) as [q |];
    [discriminate |].
  destruct (windowTable (app s) !! ToUint32 id) as [q |]; [| reflexivity].
  destruct (q =? nil_ptr); [reflexivity | discriminate].
Qed.

(** Whatever the array and the registry hold, a call on two numbers ends
    in one of three ways: [false] with nothing changed; undefined
    behaviour at a dangling pointer; or [true] with exactly one store, to a
    window that the scan matched or the registry answered. *)
Lemma body_cases (cpp : bool) (id mask : JsNumber) (s : CallState) :
  SetWindowCollectionBehavior_body cpp [Number id; Number mask] s =
    (Return (Boolean false), s)
  ∨ SetWindowCollectionBehavior_body cpp [Number id; Number mask] s =
      (UndefinedBehaviour, s)
  ∨ ∃ window w,
      window ≠ nil_ptr ∧ objects (app s) !! window = Some w ∧
      (windowNumber w = ToUint32 id
       ∨ windowTable (app s) !! ToUint32 id = Some window) ∧
      SetWindowCollectionBehavior_body cpp [Number id; Number mask] s =
        (Return (Boolean true),
         {| app := store_behavior window (ToUint32 mask) w (app s);
            pending := pending s |}).
Proof.
  rewrite !body_numbers.
  destruct (for_window_in_cases (windows (app s)) (ToUint32 id) (ToUint32 mask) s
              (ToUint32_range id))
    as [Hscan | [(window & w & _ & Hne & Hw & Hnum & Hscan) | Hscan]];
    rewrite Hscan.
  - destruct (windowTable (app s) !! ToUint32 id) as [q |] eqn:Htab.
    + destruct (q =? nil_ptr) eqn:Hnil.
      * left. reflexivity.
      * destruct (objects (app s) !! q) as [w |] eqn:Hw.
        -- right. right. exists q, w. apply Z.eqb_neq in Hnil.
           split; [exact Hnil |]. split; [exact Hw |].
           split; [right; reflexivity | reflexivity].
        -- right. left. reflexivity.
    + left. reflexivity.
  - right. right. exists window, w.
    split; [exact Hne |]. split; [exact Hw |].
    split; [left; exact Hnum | reflexivity].
  - right. left. reflexivity.
Qed.

(** ** [GetNSWindowFromHandle] *)

Lemma GetNSWindowFromHandle_absent (cpp : bool) (a : NSApplication) :
  GetNSWindowFromHandle cpp [] a = (Returned Null, a).
Proof. reflexivity. Qed.

Lemma GetNSWindowFromHandle_null_pointer (cpp : bool) (bytes : list byte)
    (a : NSApplication) :
  load_pointer (Some bytes) = Some nil_ptr →
  GetNSWindowFromHandle cpp [Buffer bytes] a = (Returned Null, a).
Proof.
  intros Hload.
  unfold GetNSWindowFromHandle, call, GetNSWindowFromHandle_body, Buffer_Data.
  cbn [length Nat.ltb Nat.leb nth].
  unfold bind, ret, deref_window. rewrite Hload. reflexivity.
Qed.

Lemma GetNSWindowFromHandle_live (cpp : bool) (bytes : list byte)
    (a : NSApplication) (window : Z) (w : NSWindow) :
  load_pointer (Some bytes) = Some window →
  window ≠ nil_ptr →
  objects a !! window = Some w →
  GetNSWindowFromHandle cpp [Buffer bytes] a =
    (Returned (Number (double_of_integer (windowNumber w))), a).
Proof.
  intros Hload Hne Hw. apply Z.eqb_neq in Hne.
  unfold GetNSWindowFromHandle, call, GetNSWindowFromHandle_body, Buffer_Data.
  cbn [length Nat.ltb Nat.leb nth].
  unfold bind, ret, deref_window. rewrite Hload.
  unfold ret, msg_windowNumber, return_. rewrite Hne. cbn [negb app].
  rewrite Hw. reflexivity.
Qed.

(** Every statement of the decoder leaves the call state as it found it. *)
Lemma GetNSWindowFromHandle_body_app (cpp : bool) (info : list napi_value)
    (s : CallState) :
  app (snd (GetNSWindowFromHandle_body cpp info s)) = app s.
Proof.
  unfold GetNSWindowFromHandle_body.
  destruct (length info <? 1)%nat; [reflexivity |].
  unfold bind at 1.
  assert (Hdata : ∃ r s', Buffer_Data cpp (nth 0 info Undefined) s = (r, s')
                          ∧ app s' = app s).
  { unfold Buffer_Data, NAPI_THROW.
    destruct (nth 0 info Undefined), cpp; eexists _, _; split; reflexivity. }
  destruct Hdata as (r & s' & -> & <-).
  destruct r as [ptr | v | e |]; try reflexivity.
  unfold bind at 1. unfold deref_window.
  destruct (load_pointer ptr) as [window |]; [| reflexivity].
  unfold ret at 1. destruct (window =? nil_ptr) eqn:Hnil; cbn [negb]; [reflexivity |].
  unfold bind, msg_windowNumber, return_. rewrite Hnil.
  destruct (objects (app s') !! window); reflexivity.
Qed.

(** ** The exported function on two numbers *)

Lemma call_resolved (cpp : bool) (id mask : JsNumber) (a : NSApplication)
    (window : Z) (w : NSWindow) :
  windows_live a →
  resolve a (ToUint32 id) = Some window →
  objects a !! window = Some w →
  SetWindowCollectionBehavior cpp [Number id; Number mask] a =
    (Returned (Boolean true), store_behavior window (ToUint32 mask) w a).
Proof.
  intros Hlive Hres Hw. unfold SetWindowCollectionBehavior, call.
  rewrite (body_resolved cpp id mask {| app := a; pending := None |} window w
             Hlive Hres Hw).
  reflexivity.
Qed.

Lemma call_unresolved (cpp : bool) (id mask : JsNumber) (a : NSApplication) :
  windows_live a →
  resolve a (ToUint32 id) = None →
  SetWindowCollectionBehavior cpp [Number id; Number mask] a =
    (Returned (Boolean false), a).
Proof.
  intros Hlive Hres. unfold SetWindowCollectionBehavior, call.
  rewrite (body_unresolved cpp id mask {| app := a; pending := None |} Hlive Hres).
  reflexivity.
Qed.

(** ** The sample states are well formed *)

Lemma two_windows_live : windows_live two_windows.
Proof. solve_windows_live. Qed.

Lemma deferred_window_live : windows_live deferred_window.
Proof. solve_windows_live. Qed.

Lemma two_windows_registry_sound : registry_sound two_windows.
Proof. solve_registry_sound. Qed.

Lemma registry_sound_live (a : NSApplication) :
  registry_sound a → registry_live a.
Proof.
  intros Hsound n window Htab Hne.
  destruct (Hsound n window Htab Hne) as (w & Hw & _). exists w. exact Hw.
Qed.

(** ** The scenario of the specification

    Windows A (number 42) and B (number 7) are open. Setting 0x12 on 42
    answers [true], A's flags become 0x12 and B keeps its flags; setting it
    on 99 answers [false]. *)
Example scenario_42 (cpp : bool) :
  let r := SetWindowCollectionBehavior cpp
             [Number (Finite 42 0); Number (Finite 18 0)] two_windows in
  fst r = Returned (Boolean true)
  ∧ objects (snd r) !! 4096 = Some (mkNSWindow 42 18)
  ∧ objects (snd r) !! 8192 = Some (mkNSWindow 7 4).
Proof. destruct cpp; repeat split; reflexivity. Qed.

Example scenario_99 (cpp : bool) :
  SetWindowCollectionBehavior cpp
    [Number (Finite 99 0); Number (Finite 18 0)] two_windows
  = (Returned (Boolean false), two_windows).
Proof. destruct cpp; reflexivity. Qed.

(** ** C1: a resolved window's flags are replaced by the mask *)

(** C1. For every window id that resolves to a live application window and
    every mask (both 32-bit unsigned integers, as the interface declares
    them), [setWindowCollectionBehavior(id, mask)] returns [true] and
    afterwards that window's collection-behavior flags are exactly [mask]:
    the previous flags do not survive in any bit. *)
Theorem C1_resolved_flags_replaced (cpp : bool) (id mask : JsNumber)
    (i m : Z) (a : NSApplication) (window : Z) (w : NSWindow) :
  windows_live a →
  integer_value id = Some i → 0 ≤ i < 2 ^ 32 →
  integer_value mask = Some m → 0 ≤ m < 2 ^ 32 →
  resolve a i = Some window →
  objects a !! window = Some w →
  ∃ a',
    SetWindowCollectionBehavior cpp [Number id; Number mask] a
      = (Returned (Boolean true), a')
    ∧ objects a' !! window
      = Some {| windowNumber := windowNumber w; collectionBehavior := m |}.
Proof.
  intros Hlive Hid Hi Hmask Hm Hres Hw.
  rewrite <- (ToUint32_uint32 id i Hid Hi) in Hres.
  exists (store_behavior window m w a). split.
  - rewrite (call_resolved cpp id mask a window w Hlive Hres Hw).
    rewrite (ToUint32_uint32 mask m Hmask Hm). reflexivity.
  - cbn [store_behavior objects]. apply lookup_insert_eq.
Qed.

Lemma C1_witness :
  ∃ a',
    SetWindowCollectionBehavior false
      [Number (Finite 42 0); Number (Finite 18 0)] two_windows
      = (Returned (Boolean true), a')
    ∧ objects a' !! 4096
      = Some {| windowNumber := 42; collectionBehavior := 18 |}.
Proof.
  apply (C1_resolved_flags_replaced false (Finite 42 0) (Finite 18 0) 42 18
           two_windows 4096 (mkNSWindow 42 1)).
  - solve_windows_live.
  - reflexivity.
  - lia.
  - reflexivity.
  - lia.
  - reflexivity.
  - reflexivity.
Defined.

(** ** C2: the order of resolution *)

Lemma resolve_first_match (a : NSApplication) (id window : Z)
    (before after : list Z) :
  windows a = before ++ window :: after →
  Forall (λ q, has_number a id q = false) before →
  has_number a id window = true →
  resolve a id = Some window.
Proof.
  intros Hsplit Hbefore Hhit. unfold resolve. rewrite Hsplit.
  clear Hsplit. induction Hbefore as [| q before Hq _ IH]; cbn [List.app List.find].
  - rewrite Hhit. reflexivity.
  - rewrite Hq. exact IH.
Qed.

Lemma resolve_no_match (a : NSApplication) (id : Z) :
  Forall (λ q, has_number a id q = false) (windows a) →
  resolve a id =
    match windowTable a !! id with
    | Some window => if window =? nil_ptr then None else Some window
    | None => None
    end.
Proof.
  intros Hnone. unfold resolve.
  destruct (List.find (has_number a id) (windows a)) as [q |] eqn:Hfind;
    [| reflexivity].
  apply find_some in Hfind as [Hin Hhit].
  rewrite Forall_forall in Hnone. apply list_elem_of_In in Hin.
  rewrite (Hnone q Hin) in Hhit. discriminate.
Qed.

(** C2. For every window id, resolution proceeds in this order: a linear
    scan of the application's windows comparing each window's number to the
    id, the first match being taken at once; if the scan finds none, the
    registry lookup of the window with that number; if both fail, the
    result is not found and [setWindowCollectionBehavior] returns [false].
    The callback is the specification's [resolve] followed by
    [applyBehavior], and [resolve] answers the first match of the scan
    before it ever consults the registry. *)
Theorem C2_resolution_order (cpp : bool) (id mask : JsNumber)
    (a : NSApplication) :
  windows_live a → registry_live a →
  SetWindowCollectionBehavior cpp [Number id; Number mask] a =
    match resolve a (ToUint32 id) with
    | Some window =>
        (Returned (Boolean true), applyBehavior window (ToUint32 mask) a)
    | None => (Returned (Boolean false), a)
    end
  ∧ (∀ before window after,
       windows a = before ++ window :: after →
       Forall (λ q, has_number a (ToUint32 id) q = false) before →
       has_number a (ToUint32 id) window = true →
       resolve a (ToUint32 id) = Some window)
  ∧ (Forall (λ q, has_number a (ToUint32 id) q = false) (windows a) →
     resolve a (ToUint32 id) =
       match windowTable a !! ToUint32 id with
       | Some window => if window =? nil_ptr then None else Some window
       | None => None
       end).
Proof.
  intros Hlive Hreg. split; [| split].
  - destruct (resolve a (ToUint32 id)) as [window |] eqn:Hres.
    + destruct (resolve_live a _ window Hreg Hres) as [_ [w Hw]].
      rewrite (call_resolved cpp id mask a window w Hlive Hres Hw).
      unfold applyBehavior. rewrite Hw. reflexivity.
    + apply (call_unresolved cpp id mask a Hlive Hres).
  - intros before window after. apply resolve_first_match.
  - apply resolve_no_match.
Qed.

Lemma C2_witness :
  SetWindowCollectionBehavior true
    [Number (Finite 7 0); Number (Finite 18 0)] two_windows
  = (Returned (Boolean true), applyBehavior 8192 18 two_windows).
Proof.
  refine (proj1 (C2_resolution_order true (Finite 7 0) (Finite 18 0)
                   two_windows _ _)).
  - solve_windows_live.
  - apply registry_sound_live. solve_registry_sound.
Defined.

(** ** C3: an id that does not resolve *)

(** C3. For every id that resolves to no open application window, by the
    scan or by the registry, and every mask,
    [setWindowCollectionBehavior(id, mask)] returns [false], throws
    nothing, and leaves the application (every window's flags included)
    as it was. *)
Theorem C3_unresolved_returns_false (cpp : bool) (id mask : JsNumber)
    (a : NSApplication) :
  windows_live a →
  resolve a (ToUint32 id) = None →
  SetWindowCollectionBehavior cpp [Number id; Number mask] a
    = (Returned (Boolean false), a).
Proof. apply call_unresolved. Qed.

Lemma C3_witness :
  SetWindowCollectionBehavior true
    [Number (Finite 99 0); Number (Finite 18 0)] two_windows
  = (Returned (Boolean false), two_windows).
Proof.
  apply (C3_unresolved_returns_false true (Finite 99 0) (Finite 18 0) two_windows).
  - solve_windows_live.
  - reflexivity.
Defined.

(** ** C4: too few arguments *)

(** C4. Whenever [setWindowCollectionBehavior] is invoked with fewer than
    two arguments it throws the argument error (a [TypeError]) and mutates
    nothing: the application comes back unchanged whatever it holds, so no
    window was messaged, and the outcome does not depend on the
    application at all, so no window was looked up. *)
Theorem C4_too_few_arguments (cpp : bool) (info : list napi_value)
    (a : NSApplication) :
  (length info < 2)%nat →
  SetWindowCollectionBehavior cpp info a
    = (Threw (TypeError "Expected 2 arguments: windowId and behavior"), a)
  ∧ ∀ a', fst (SetWindowCollectionBehavior cpp info a')
          = fst (SetWindowCollectionBehavior cpp info a).
Proof.
  intros Hlen. apply Nat.ltb_lt in Hlen.
  unfold SetWindowCollectionBehavior, call, SetWindowCollectionBehavior_body.
  rewrite Hlen. split; [reflexivity | intros a'; reflexivity].
Qed.

Lemma C4_witness :
  SetWindowCollectionBehavior false [Number (Finite 42 0)] two_windows
  = (Threw (TypeError "Expected 2 arguments: windowId and behavior"),
     two_windows).
Proof.
  refine (proj1 (C4_too_few_arguments false [Number (Finite 42 0)]
                   two_windows _)).
  cbn [length]. lia.
Defined.

(** ** C7: the frame of a successful call *)

(** C7. A successful [setWindowCollectionBehavior(id, mask)] mutates only
    one window, whose number equals [id]: that window's flags become
    [mask], its number stays, every other window object is left as it
    was, and so are the window array and the registry. *)
Theorem C7_only_target_window_mutated (cpp : bool) (id mask : JsNumber)
    (a a' : NSApplication) :
  registry_sound a →
  SetWindowCollectionBehavior cpp [Number id; Number mask] a
    = (Returned (Boolean true), a') →
  ∃ window w,
    objects a !! window = Some w
    ∧ windowNumber w = ToUint32 id
    ∧ objects a' !! window
      = Some {| windowNumber := windowNumber w;
                collectionBehavior := ToUint32 mask |}
    ∧ (∀ other, other ≠ window → objects a' !! other = objects a !! other)
    ∧ windows a' = windows a
    ∧ windowTable a' = windowTable a.
Proof.
  intros Hsound. unfold SetWindowCollectionBehavior, call.
  destruct (body_cases cpp id mask {| app := a; pending := None |})
    as [-> | [-> | (window & w & Hne & Hw & Hnum & ->)]];
    cbn [app pending]; try discriminate.
  intros [= <-]. exists window, w. cbn [app] in Hw, Hnum.
  split; [exact Hw |]. split.
  - destruct Hnum as [Hnum | Htab]; [exact Hnum |].
    destruct (Hsound _ _ Htab Hne) as (w' & Hw' & Hnum).
    congruence.
  - cbn [store_behavior objects windows windowTable].
    split; [apply lookup_insert_eq |].
    split; [| split; reflexivity].
    intros other Hother. apply lookup_insert_ne. congruence.
Qed.

Lemma C7_witness :
  ∃ window w,
    objects two_windows !! window = Some w
    ∧ windowNumber w = ToUint32 (Finite 42 0)
    ∧ objects (applyBehavior 4096 18 two_windows) !! window
      = Some {| windowNumber := windowNumber w;
                collectionBehavior := ToUint32 (Finite 18 0) |}
    ∧ (∀ other, other ≠ window →
         objects (applyBehavior 4096 18 two_windows) !! other
         = objects two_windows !! other)
    ∧ windows (applyBehavior 4096 18 two_windows) = windows two_windows
    ∧ windowTable (applyBehavior 4096 18 two_windows) = windowTable two_windows.
Proof.
  apply (C7_only_target_window_mutated true (Finite 42 0) (Finite 18 0)
           two_windows (applyBehavior 4096 18 two_windows)).
  - solve_registry_sound.
  - reflexivity.
Defined.

(** ** C10: the behavior value is truncated to 32 bits *)

(** C10. The behavior applied to a resolved window is the caller's second
    argument reduced modulo 2^32 by [Uint32Value] and then widened to the
    platform's unsigned long: for every integer behavior argument [b] the
    flags written are [b mod 2^32]. *)
Theorem C10_behavior_truncated (cpp : bool) (id behavior : JsNumber) (b : Z)
    (a : NSApplication) (window : Z) (w : NSWindow) :
  windows_live a →
  integer_value behavior = Some b →
  resolve a (ToUint32 id) = Some window →
  objects a !! window = Some w →
  ∃ a',
    SetWindowCollectionBehavior cpp [Number id; Number behavior] a
      = (Returned (Boolean true), a')
    ∧ collectionBehavior <$> objects a' !! window = Some (b mod 2 ^ 32)
    ∧ NSUInteger_of (ToUint32 behavior) = b mod 2 ^ 32.
Proof.
  intros Hlive Hb Hres Hw.
  exists (store_behavior window (ToUint32 behavior) w a).
  split; [exact (call_resolved cpp id behavior a window w Hlive Hres Hw) |].
  rewrite <- (ToUint32_integer behavior b Hb). split.
  - cbn [store_behavior objects]. rewrite lookup_insert_eq. reflexivity.
  - apply NSUInteger_of_uint32, ToUint32_range.
Qed.

Lemma C10_witness :
  ∃ a',
    SetWindowCollectionBehavior true
      [Number (Finite 42 0); Number (Finite (2 ^ 32 + 18) 0)] two_windows
      = (Returned (Boolean true), a')
    ∧ collectionBehavior <$> objects a' !! 4096 = Some ((2 ^ 32 + 18) mod 2 ^ 32)
    ∧ NSUInteger_of (ToUint32 (Finite (2 ^ 32 + 18) 0))
      = (2 ^ 32 + 18) mod 2 ^ 32.
Proof.
  apply (C10_behavior_truncated true (Finite 42 0) (Finite (2 ^ 32 + 18) 0)
           (2 ^ 32 + 18) two_windows 4096 (mkNSWindow 42 1)).
  - solve_windows_live.
  - reflexivity.
  - reflexivity.
  - reflexivity.
Defined.

(** ** C9: the decoder is read-only *)

(** C9. [getNSWindowFromHandle] is read-only: for every input, whatever it
    answers, the application after the call is the application before it:
    no window's flags and no other window state change. *)
Theorem C9_decoder_read_only (cpp : bool) (info : list napi_value)
    (a : NSApplication) :
  snd (GetNSWindowFromHandle cpp info a) = a.
Proof.
  unfold GetNSWindowFromHandle, call.
  pose proof (GetNSWindowFromHandle_body_app cpp info {| app := a; pending := None |})
    as Happ.
  destruct (GetNSWindowFromHandle_body cpp info {| app := a; pending := None |})
    as [r s'].
  exact Happ.
Qed.

(** ** C5: the decoder on an absent, empty or null handle *)

(** A buffer shorter than a pointer: the load at line 60 reads past its
    end. *)
Lemma GetNSWindowFromHandle_short_buffer (cpp : bool) (bytes : list byte)
    (a : NSApplication) :
  (length bytes < 8)%nat →
  GetNSWindowFromHandle cpp [Buffer bytes] a = (Fault, a).
Proof.
  intros Hlen. apply Nat.ltb_lt in Hlen.
  unfold GetNSWindowFromHandle, call, GetNSWindowFromHandle_body, Buffer_Data.
  cbn [length Nat.ltb Nat.leb nth].
  unfold bind, ret, deref_window, load_pointer. rewrite Hlen. reflexivity.
Qed.

(** C5. The decoder answers [null] for an absent argument and for a buffer
    whose embedded pointer is null, but not for an empty buffer: there the
    pointer-sized load of line 60 has nothing to read, and the call
    faults. *)
Theorem C5_empty_buffer_faults (cpp : bool) (a : NSApplication) :
  GetNSWindowFromHandle cpp [Buffer []] a = (Fault, a).
Proof. reflexivity. Qed.

(** ** C6: decoding a handle and resolving the number it yields *)

Lemma find_unique (a : NSApplication) (id window : Z) (w : NSWindow) :
  window ∈ windows a →
  window ≠ nil_ptr →
  objects a !! window = Some w →
  windowNumber w = id →
  number_unique a window w →
  List.find (has_number a id) (windows a) = Some window.
Proof.
  intros Hin Hne Hw Hnum Huniq.
  assert (Hhit : has_number a id window = true).
  { unfold has_number. rewrite Hw. apply andb_true_iff. split.
    - apply negb_true_iff, Z.eqb_neq, Hne.
    - apply Z.eqb_eq, Hnum. }
  destruct (List.find (has_number a id) (windows a)) as [q |] eqn:Hfind.
  - apply find_some in Hfind as [Hq Hqhit].
    destruct (has_number_live _ _ _ Hqhit) as (_ & w' & Hw' & Hnum').
    f_equal. apply (Huniq q w'); [apply list_elem_of_In, Hq | exact Hw' | congruence].
  - apply list_elem_of_In in Hin.
    rewrite (find_none _ _ Hfind window Hin) in Hhit. discriminate.
Qed.

(** C6, as amended. For every live application window W whose number fits
    the identifier type (0 <= number < 2^32), decoding a buffer that embeds
    a pointer to W returns W's number, and that number, passed to
    [setWindowCollectionBehavior], resolves to W and mutates W. *)
Theorem C6_roundtrip_uint32 (cpp : bool) (a : NSApplication) (window : Z)
    (w : NSWindow) (bytes : list byte) (mask : JsNumber) :
  windows_live a →
  window ∈ windows a →
  window ≠ nil_ptr →
  objects a !! window = Some w →
  number_unique a window w →
  load_pointer (Some bytes) = Some window →
  0 ≤ windowNumber w < 2 ^ 32 →
  roundtrip_at cpp a window w bytes mask.
Proof.
  intros Hlive Hin Hne Hw Huniq Hload Hrange.
  exists (Finite (windowNumber w) 0).
  assert (Hval : integer_value (Finite (windowNumber w) 0) = Some (windowNumber w)).
  { cbn [integer_value]. cbn [Z.leb Z.compare]. f_equal. rewrite Z.pow_0_r. lia. }
  assert (Hu32 : ToUint32 (Finite (windowNumber w) 0) = windowNumber w)
    by exact (ToUint32_uint32 _ _ Hval Hrange).
  assert (Hres : resolve a (ToUint32 (Finite (windowNumber w) 0)) = Some window).
  { unfold resolve.
    rewrite (find_unique a _ window w Hin Hne Hw (eq_sym Hu32) Huniq).
    reflexivity. }
  split; [| split; [exact Hval | split; [exact Hres |]]].
  - rewrite (GetNSWindowFromHandle_live cpp bytes a window w Hload Hne Hw).
    rewrite double_of_integer_exact; [reflexivity |].
    apply Z.abs_lt. lia.
  - rewrite (call_resolved cpp _ mask a window w Hlive Hres Hw).
    unfold applyBehavior. rewrite Hw. reflexivity.
Qed.

Lemma C6_witness :
  roundtrip_at true two_windows 4096 (mkNSWindow 42 1) handle_A (Finite 18 0).
Proof.
  apply C6_roundtrip_uint32.
  - solve_windows_live.
  - cbn [windows two_windows]. apply elem_of_cons. left. reflexivity.
  - discriminate.
  - reflexivity.
  - intros other w' Hin Hw' Hnum. cbn [windows two_windows] in Hin.
    apply elem_of_cons in Hin as [-> | Hin]; [reflexivity |].
    apply list_elem_of_singleton in Hin as ->.
    vm_compute in Hw'. injection Hw' as <-. discriminate.
  - reflexivity.
  - cbn [windowNumber]. lia.
Defined.

(** C6, as stated, fails on a window that has no window device yet: its
    number is -1, the decoder answers -1, and [Uint32Value] turns -1 into
    4294967295, which no window carries. *)
Lemma C6_counterexample :
  ¬ (∀ (cpp : bool) (a : NSApplication) (window : Z) (w : NSWindow)
       (bytes : list byte) (mask : JsNumber),
       windows_live a →
       window ∈ windows a →
       window ≠ nil_ptr →
       objects a !! window = Some w →
       number_unique a window w →
       load_pointer (Some bytes) = Some window →
       roundtrip_at cpp a window w bytes mask).
Proof.
  intros Hclaim.
  destruct (Hclaim true deferred_window 4096 (mkNSWindow (-1) 0)
              handle_deferred (Finite 18 0))
    as (n & Hget & _ & Hres & _).
  - solve_windows_live.
  - cbn [windows deferred_window]. apply list_elem_of_singleton. reflexivity.
  - discriminate.
  - reflexivity.
  - intros other w' Hin _ _. cbn [windows deferred_window] in Hin.
    apply list_elem_of_singleton in Hin. exact Hin.
  - reflexivity.
  - vm_compute in Hget. injection Hget as <-.
    vm_compute in Hres. discriminate.
Qed.

(** ** C8: malformed and zero identifiers *)

(** C8, as amended. For every numeric window identifier, be it zero,
    negative, fractional, not finite or beyond 32 bits, passed with a
    numeric mask, no error is raised: the identifier is reduced by
    [Uint32Value], and the call returns [false] exactly when the reduced
    identifier does not resolve, [true] otherwise. *)
Theorem C8_numeric_identifier_never_throws (cpp : bool) (id mask : JsNumber)
    (a : NSApplication) :
  windows_live a → registry_live a →
  ∃ found a',
    SetWindowCollectionBehavior cpp [Number id; Number mask] a
      = (Returned (Boolean found), a')
    ∧ (found = false ↔ resolve a (ToUint32 id) = None)
    ∧ (found = false → a' = a).
Proof.
  intros Hlive Hreg.
  destruct (resolve a (ToUint32 id)) as [window |] eqn:Hres.
  - destruct (resolve_live a _ window Hreg Hres) as [_ [w Hw]].
    exists true, (store_behavior window (ToUint32 mask) w a).
    split; [exact (call_resolved cpp id mask a window w Hlive Hres Hw) |].
    split; [split |]; discriminate.
  - exists false, a.
    split; [exact (call_unresolved cpp id mask a Hlive Hres) |].
    split; [split |]; reflexivity.
Qed.

Lemma C8_witness :
  ∃ found a',
    SetWindowCollectionBehavior true
      [Number (Finite 0 0); Number (Finite 18 0)] two_windows
      = (Returned (Boolean found), a')
    ∧ (found = false ↔ resolve two_windows (ToUint32 (Finite 0 0)) = None)
    ∧ (found = false → a' = two_windows).
Proof.
  apply (C8_numeric_identifier_never_throws true (Finite 0 0) (Finite 18 0)
           two_windows).
  - solve_windows_live.
  - apply registry_sound_live. solve_registry_sound.
Defined.

(** C8, as stated, fails on an identifier beyond 32 bits: 2^32 + 42 is
    malformed, yet [Uint32Value] reduces it to 42, window A is found and
    mutated, and the call returns [true]. *)
Lemma C8_counterexample :
  ¬ (∀ (cpp : bool) (a : NSApplication) (id : napi_value) (mask : JsNumber),
       windows_live a → registry_sound a →
       malformed_or_zero id = true →
       SetWindowCollectionBehavior cpp [id; Number mask] a
         = (Returned (Boolean false), a)).
Proof.
  intros Hclaim.
  specialize (Hclaim true two_windows (Number (Finite (2 ^ 32 + 42) 0))
                (Finite 18 0)).
  assert (Hcall : SetWindowCollectionBehavior true
                    [Number (Finite (2 ^ 32 + 42) 0); Number (Finite 18 0)]
                    two_windows
                  = (Returned (Boolean true), applyBehavior 4096 18 two_windows))
    by reflexivity.
  rewrite Hcall in Hclaim.
  enough (Hfalse : (Returned (Boolean true), applyBehavior 4096 18 two_windows)
                   = (Returned (Boolean false), two_windows))
    by discriminate.
  apply Hclaim.
  - solve_windows_live.
  - solve_registry_sound.
  - reflexivity.
Qed.

(** An identifier that is not a number at all is reported as an error by
    either build of the addon. *)
Example string_identifier_throws (cpp : bool) :
  fst (SetWindowCollectionBehavior cpp
         [String "42"; Number (Finite 18 0)] two_windows)
  = Threw (NapiError napi_number_expected).
Proof. destruct cpp; reflexivity. Qed.

(** * Every argument list, both builds *)

(** ** Marshalling *)

(** Only the first two arguments are read. *)
Lemma body_two_arguments (cpp : bool) (info : list napi_value) (s : CallState) :
  (2 ≤ length info)%nat →
  SetWindowCollectionBehavior_body cpp info s =
    SetWindowCollectionBehavior_body cpp
      [nth 0 info Undefined; nth 1 info Undefined] s.
Proof.
  intros Hlen. unfold SetWindowCollectionBehavior_body.
  assert (Hlt : (length info <? 2)%nat = false) by (apply Nat.ltb_ge; exact Hlen).
  rewrite Hlt. reflexivity.
Qed.

(** With C++ exceptions, the first failed conversion leaves the callback. *)
Lemma body_exceptions (v0 v1 : napi_value) (s : CallState) :
  is_number v0 && is_number v1 = false →
  SetWindowCollectionBehavior_body true [v0; v1] s =
    (Raise (NapiError napi_number_expected), s).
Proof.
  intros Hnum. unfold SetWindowCollectionBehavior_body.
  cbn [length Nat.ltb Nat.leb nth].
  destruct v0; try reflexivity.
  destruct v1; try reflexivity.
  discriminate.
Qed.

(** Without C++ exceptions, a failed conversion leaves an error pending
    and the callback goes on with 0 in place of the argument. *)
Lemma body_no_exceptions (v0 v1 : napi_value) (s : CallState) :
  is_number v0 && is_number v1 = false →
  SetWindowCollectionBehavior_body false [v0; v1] s =
    SetWindowCollectionBehavior_body false
      [Number (coerced v0); Number (coerced v1)]
      (with_pending (NapiError napi_number_expected) s).
Proof.
  intros Hnum. unfold SetWindowCollectionBehavior_body.
  cbn [length Nat.ltb Nat.leb nth].
  destruct s as [a p].
  destruct v0, v1; try discriminate;
    unfold bind at 1; unfold Uint32Value at 1;
    cbn [napi_get_value_uint32 NAPI_THROW coerced];
    unfold with_pending; cbn [app pending];
    destruct p; reflexivity.
Qed.

(** ** The pending error does not steer the callback *)

(** One iteration of the scan, spelled out. *)
Lemma for_window_in_cons (window : Z) (rest : list Z) (id behavior : Z)
    (s : CallState) :
  for_window_in (window :: rest) id behavior s =
    if window =? nil_ptr then for_window_in rest id behavior s
    else match objects (app s) !! window with
         | Some w =>
             if windowNumber w =? NSInteger_of id then
               (Return (Boolean true),
                {| app := store_behavior window behavior w (app s);
                   pending := pending s |})
             else for_window_in rest id behavior s
         | None => (UndefinedBehaviour, s)
         end.
Proof.
  cbn [for_window_in].
  unfold bind, msg_windowNumber, msg_setCollectionBehavior, ret, return_.
  destruct (window =? nil_ptr); [reflexivity |].
  destruct (objects (app s) !! window) as [w |] eqn:Hw; [| reflexivity].
  destruct (windowNumber w =? NSInteger_of id); [| reflexivity].
  cbn [app]. rewrite Hw. reflexivity.
Qed.

Lemma for_window_in_pending (ws : list Z) (id behavior : Z)
    (a : NSApplication) (p : option JsError) :
  for_window_in ws id behavior {| app := a; pending := p |} =
    let '(r, s') := for_window_in ws id behavior {| app := a; pending := None |} in
    (r, {| app := app s'; pending := p |}).
Proof.
  induction ws as [| window rest IH]; [reflexivity |].
  rewrite !for_window_in_cons. cbn [app pending].
  destruct (window =? nil_ptr); [exact IH |].
  destruct (objects a !! window) as [w |]; [| reflexivity].
  destruct (windowNumber w =? NSInteger_of id); [reflexivity | exact IH].
Qed.

Lemma body_pending (cpp : bool) (id mask : JsNumber) (a : NSApplication)
    (p : option JsError) :
  SetWindowCollectionBehavior_body cpp [Number id; Number mask]
    {| app := a; pending := p |} =
    let '(r, s') := SetWindowCollectionBehavior_body cpp [Number id; Number mask]
                      {| app := a; pending := None |} in
    (r, {| app := app s'; pending := p |}).
Proof.
  rewrite !body_numbers. cbn [app].
  rewrite (for_window_in_pending _ _ _ a p).
  destruct (for_window_in (windows a) (ToUint32 id) (ToUint32 mask)
              {| app := a; pending := None |}) as [[[] | v | e |] [a' p']];
    try reflexivity.
  cbn [app pending].
  destruct (windowTable a' !! ToUint32 id) as [target |]; [| reflexivity].
  destruct (target =? nil_ptr); [reflexivity |].
  destruct (objects a' !! target); reflexivity.
Qed.

(** ** The exported function on any argument list *)

Lemma call_two_arguments (cpp : bool) (info : list napi_value)
    (a : NSApplication) :
  (2 ≤ length info)%nat →
  SetWindowCollectionBehavior cpp info a =
    SetWindowCollectionBehavior cpp
      [nth 0 info Undefined; nth 1 info Undefined] a.
Proof.
  intros Hlen. unfold SetWindowCollectionBehavior, call.
  rewrite (body_two_arguments cpp info _ Hlen). reflexivity.
Qed.

(** A call on two numbers: its three possible results. *)
Lemma call_cases (cpp : bool) (id mask : JsNumber) (a : NSApplication) :
  SetWindowCollectionBehavior cpp [Number id; Number mask] a
    = (Returned (Boolean false), a)
  ∨ SetWindowCollectionBehavior cpp [Number id; Number mask] a = (Fault, a)
  ∨ ∃ window w,
      window ≠ nil_ptr ∧ objects a !! window = Some w ∧
      (windowNumber w = ToUint32 id
       ∨ windowTable a !! ToUint32 id = Some window) ∧
      SetWindowCollectionBehavior cpp [Number id; Number mask] a =
        (Returned (Boolean true), store_behavior window (ToUint32 mask) w a).
Proof.
  unfold SetWindowCollectionBehavior, call.
  destruct (body_cases cpp id mask {| app := a; pending := None |})
    as [-> | [-> | (window & w & Hne & Hw & Hnum & ->)]].
  - left. reflexivity.
  - right. left. reflexivity.
  - right. right. exists window, w. cbn [app] in Hw, Hnum.
    split; [exact Hne |]. split; [exact Hw |]. split; [exact Hnum | reflexivity].
Qed.

Lemma call_no_exceptions (v0 v1 : napi_value) (a : NSApplication) :
  is_number v0 && is_number v1 = false →
  SetWindowCollectionBehavior false [v0; v1] a =
    let r := SetWindowCollectionBehavior false
               [Number (coerced v0); Number (coerced v1)] a in
    (match fst r with
     | Fault => Fault
     | _ => Threw (NapiError napi_number_expected)
     end, snd r).
Proof.
  intros Hnum. unfold SetWindowCollectionBehavior, call.
  rewrite (body_no_exceptions v0 v1 _ Hnum).
  unfold with_pending. cbn [app pending].
  rewrite body_pending.
  destruct (body_cases false (coerced v0) (coerced v1) {| app := a; pending := None |})
    as [-> | [-> | (window & w & _ & _ & _ & ->)]]; reflexivity.
Qed.

Lemma call_exceptions (v0 v1 : napi_value) (a : NSApplication) :
  is_number v0 && is_number v1 = false →
  SetWindowCollectionBehavior true [v0; v1] a =
    (Threw (NapiError napi_number_expected), a).
Proof.
  intros Hnum. unfold SetWindowCollectionBehavior, call.
  rewrite (body_exceptions v0 v1 _ Hnum). reflexivity.
Qed.

Lemma call_too_few (cpp : bool) (info : list napi_value) (a : NSApplication) :
  (length info <? 2)%nat = true →
  SetWindowCollectionBehavior cpp info a =
    (Threw (TypeError "Expected 2 arguments: windowId and behavior"), a).
Proof.
  intros Hlen.
  unfold SetWindowCollectionBehavior, call, SetWindowCollectionBehavior_body.
  rewrite Hlen. reflexivity.
Qed.

Lemma is_number_coerced (v : napi_value) :
  is_number v = true → v = Number (coerced v).
Proof. destruct v; try discriminate. reflexivity. Qed.

(** Whatever the arguments and the build, a call stores at most once. *)
Lemma call_effect (cpp : bool) (info : list napi_value) (a : NSApplication) :
  snd (SetWindowCollectionBehavior cpp info a) = a
  ∨ ∃ window w id mask,
      window ≠ nil_ptr ∧ objects a !! window = Some w ∧
      (windowNumber w = ToUint32 id
       ∨ windowTable a !! ToUint32 id = Some window) ∧
      snd (SetWindowCollectionBehavior cpp info a)
        = store_behavior window (ToUint32 mask) w a.
Proof.
  destruct (length info <? 2)%nat eqn:Hlen.
  - left. rewrite (call_too_few cpp info a Hlen). reflexivity.
  - apply Nat.ltb_ge in Hlen. rewrite (call_two_arguments cpp info a Hlen).
    set (v0 := nth 0 info Undefined). set (v1 := nth 1 info Undefined).
    assert (Hnumbers : ∀ build,
              snd (SetWindowCollectionBehavior build
                     [Number (coerced v0); Number (coerced v1)] a) = a
              ∨ ∃ window w id mask,
                  window ≠ nil_ptr ∧ objects a !! window = Some w ∧
                  (windowNumber w = ToUint32 id
                   ∨ windowTable a !! ToUint32 id = Some window) ∧
                  snd (SetWindowCollectionBehavior build
                         [Number (coerced v0); Number (coerced v1)] a)
                    = store_behavior window (ToUint32 mask) w a).
    { intros build.
      destruct (call_cases build (coerced v0) (coerced v1) a)
        as [-> | [-> | (window & w & Hne & Hw & Hnum & ->)]].
      - left. reflexivity.
      - left. reflexivity.
      - right. exists window, w, (coerced v0), (coerced v1).
        split; [exact Hne |]. split; [exact Hw |].
        split; [exact Hnum | reflexivity]. }
    destruct (is_number v0 && is_number v1) eqn:Hnum.
    + apply andb_true_iff in Hnum as [H0 H1].
      specialize (Hnumbers cpp).
      rewrite <- (is_number_coerced v0 H0), <- (is_number_coerced v1 H1) in Hnumbers.
      exact Hnumbers.
    + destruct cpp.
      * left. rewrite (call_exceptions v0 v1 a Hnum). reflexivity.
      * rewrite (call_no_exceptions v0 v1 a Hnum). cbn [snd].
        apply Hnumbers.
Qed.

(** ** What a store leaves alone *)

Lemma store_lookup_number (a : NSApplication) (window m : Z) (w : NSWindow)
    (p : Z) :
  objects a !! window = Some w →
  windowNumber <$> objects (store_behavior window m w a) !! p
    = windowNumber <$> objects a !! p.
Proof.
  intros Hw. cbn [store_behavior objects].
  destruct (decide (window = p)) as [<- | Hne].
  - rewrite lookup_insert_eq, Hw. reflexivity.
  - rewrite lookup_insert_ne by exact Hne. reflexivity.
Qed.

Lemma has_number_by_numbers (a a' : NSApplication) (id p : Z) :
  windowNumber <$> objects a' !! p = windowNumber <$> objects a !! p →
  has_number a' id p = has_number a id p.
Proof.
  unfold has_number.
  destruct (objects a' !! p) as [w' |], (objects a !! p) as [w |];
    cbn [fmap option_fmap option_map]; intros Heq;
    try discriminate; [| reflexivity].
  injection Heq as ->. reflexivity.
Qed.

Lemma find_agree {A} (f g : A → bool) (l : list A) :
  (∀ x, f x = g x) → List.find f l = List.find g l.
Proof.
  intros Hfg. induction l as [| x l IH]; [reflexivity |].
  cbn [List.find]. rewrite Hfg, IH. reflexivity.
Qed.

(** Two applications with the same window array, the same registry and
    the same window numbers resolve every id alike. *)
Lemma resolve_by_numbers (a a' : NSApplication) (id : Z) :
  windows a' = windows a →
  windowTable a' = windowTable a →
  (∀ p, windowNumber <$> objects a' !! p = windowNumber <$> objects a !! p) →
  resolve a' id = resolve a id.
Proof.
  intros Hwin Htab Hnum. unfold resolve. rewrite Hwin, Htab.
  rewrite (find_agree (has_number a' id) (has_number a id)); [reflexivity |].
  intros p. apply has_number_by_numbers, Hnum.
Qed.

Lemma is_Some_by_numbers (a a' : NSApplication) (p : Z) :
  windowNumber <$> objects a' !! p = windowNumber <$> objects a !! p →
  is_Some (objects a !! p) → is_Some (objects a' !! p).
Proof.
  intros Heq [w Hw]. rewrite Hw in Heq.
  destruct (objects a' !! p) as [w' |]; [exists w'; reflexivity | discriminate].
Qed.

(** Every call keeps the window array, the registry and each object's
    window number. *)
Lemma call_keeps_numbers (cpp : bool) (info : list napi_value)
    (a : NSApplication) :
  windows (snd (SetWindowCollectionBehavior cpp info a)) = windows a
  ∧ windowTable (snd (SetWindowCollectionBehavior cpp info a)) = windowTable a
  ∧ ∀ p, windowNumber <$> objects (snd (SetWindowCollectionBehavior cpp info a)) !! p
         = windowNumber <$> objects a !! p.
Proof.
  destruct (call_effect cpp info a)
    as [-> | (window & w & id & mask & _ & Hw & _ & ->)].
  - repeat split; reflexivity.
  - split; [reflexivity |]. split; [reflexivity |].
    intros p. apply store_lookup_number, Hw.
Qed.

Lemma call_numbers_outcome (cpp : bool) (id mask : JsNumber) (a : NSApplication) :
  windows_live a → registry_live a →
  fst (SetWindowCollectionBehavior cpp [Number id; Number mask] a) =
    Returned (Boolean (match resolve a (ToUint32 id) with
                       | Some _ => true
                       | None => false
                       end)).
Proof.
  intros Hlive Hreg.
  destruct (resolve a (ToUint32 id)) as [window |] eqn:Hres.
  - destruct (resolve_live a _ window Hreg Hres) as [_ [w Hw]].
    rewrite (call_resolved cpp id mask a window w Hlive Hres Hw). reflexivity.
  - rewrite (call_unresolved cpp id mask a Hlive Hres). reflexivity.
Qed.

(** ** X1: module registration *)

(** X1. [Init] exports the two callbacks under their JavaScript names
    (the second registration does not displace the first), leaves every
    other property of [exports] as it was, and running it again changes
    nothing; the module object has these two properties and no other. *)
Theorem X1_Init_exports (cpp : bool) (exports : gmap string property) :
  Init cpp exports !! "setWindowCollectionBehavior"
    = Some (Function (SetWindowCollectionBehavior cpp))
  ∧ Init cpp exports !! "getNSWindowFromHandle"
    = Some (Function (GetNSWindowFromHandle cpp))
  ∧ (∀ name : string,
       name ≠ "setWindowCollectionBehavior" →
       name ≠ "getNSWindowFromHandle" →
       Init cpp exports !! name = exports !! name)
  ∧ Init cpp (Init cpp exports) = Init cpp exports
  ∧ dom (window_overlay cpp)
    = {[ "setWindowCollectionBehavior"; "getNSWindowFromHandle" ]}.
Proof.
  assert (Hdistinct : ("getNSWindowFromHandle" : string)
                      ≠ "setWindowCollectionBehavior") by discriminate.
  unfold window_overlay, Init.
  split; [| split; [| split; [| split]]].
  - rewrite lookup_insert_ne by exact Hdistinct. apply lookup_insert_eq.
  - apply lookup_insert_eq.
  - intros name Hset Hget.
    rewrite !lookup_insert_ne by congruence. reflexivity.
  - apply map_eq. intros name.
    destruct (decide (name = "getNSWindowFromHandle")) as [-> | Hget].
    + rewrite !lookup_insert_eq. reflexivity.
    + rewrite !(lookup_insert_ne _ "getNSWindowFromHandle") by congruence.
      destruct (decide (name = "setWindowCollectionBehavior")) as [-> | Hset].
      * rewrite !lookup_insert_eq. reflexivity.
      * rewrite !lookup_insert_ne by congruence. reflexivity.
  - rewrite !dom_insert_L, dom_empty_L. set_solver.
Qed.

(** ** X2: surplus arguments *)

(** X2. Both exported functions read only the arguments they declare:
    whatever follows the second argument of [setWindowCollectionBehavior],
    or the first of [getNSWindowFromHandle], does not affect the outcome
    or the state. *)
Theorem X2_surplus_arguments_ignored (cpp : bool) (v0 v1 : napi_value)
    (surplus : list napi_value) (a : NSApplication) :
  SetWindowCollectionBehavior cpp (v0 :: v1 :: surplus) a
    = SetWindowCollectionBehavior cpp [v0; v1] a
  ∧ GetNSWindowFromHandle cpp (v0 :: v1 :: surplus) a
    = GetNSWindowFromHandle cpp [v0] a.
Proof.
  split.
  - apply (call_two_arguments cpp (v0 :: v1 :: surplus) a). cbn [length]. lia.
  - reflexivity.
Qed.

(** ** X3, X4: arguments that are not numbers *)

(** X3. Built with C++ exceptions, [setWindowCollectionBehavior] given a
    first or second argument that is not a number throws the N-API
    "number expected" error before it looks at any window: the application
    is unchanged, whatever it holds. *)
Theorem X3_non_number_throws_before_lookup (v0 v1 : napi_value)
    (surplus : list napi_value) (a : NSApplication) :
  is_number v0 && is_number v1 = false →
  SetWindowCollectionBehavior true (v0 :: v1 :: surplus) a
    = (Threw (NapiError napi_number_expected), a).
Proof.
  intros Hnum.
  rewrite (call_two_arguments true (v0 :: v1 :: surplus) a) by (cbn [length]; lia).
  apply (call_exceptions v0 v1 a Hnum).
Qed.

Lemma X3_witness :
  SetWindowCollectionBehavior true [String "42"; Number (Finite 18 0)] two_windows
    = (Threw (NapiError napi_number_expected), two_windows).
Proof.
  apply (X3_non_number_throws_before_lookup (String "42") (Number (Finite 18 0))
           [] two_windows).
  reflexivity.
Defined.

(** X4. Built without C++ exceptions, the same call also ends in the
    "number expected" error, but only after the lookup has run with 0 in
    place of each argument that is not a number: the application is left
    as the call on the substituted numbers leaves it, so a window may have
    been mutated although the call threw. *)
Theorem X4_non_number_coerced_to_zero (v0 v1 : napi_value)
    (surplus : list napi_value) (a : NSApplication) :
  windows_live a → registry_live a →
  is_number v0 && is_number v1 = false →
  SetWindowCollectionBehavior false (v0 :: v1 :: surplus) a
    = (Threw (NapiError napi_number_expected),
       snd (SetWindowCollectionBehavior false
              [Number (coerced v0); Number (coerced v1)] a)).
Proof.
  intros Hlive Hreg Hnum.
  rewrite (call_two_arguments false (v0 :: v1 :: surplus) a) by (cbn [length]; lia).
  cbn [nth]. rewrite (call_no_exceptions v0 v1 a Hnum). cbv zeta.
  rewrite (call_numbers_outcome false (coerced v0) (coerced v1) a Hlive Hreg).
  reflexivity.
Qed.

(** [setWindowCollectionBehavior(42, "join")] without C++ exceptions:
    the call throws, and window A's flags have been cleared. *)
Lemma X4_witness :
  SetWindowCollectionBehavior false [Number (Finite 42 0); String "join"] two_windows
    = (Threw (NapiError napi_number_expected),
       snd (SetWindowCollectionBehavior false
              [Number (Finite 42 0); Number (Finite 0 0)] two_windows))
  ∧ objects (snd (SetWindowCollectionBehavior false
                    [Number (Finite 42 0); String "join"] two_windows)) !! 4096
    = Some (mkNSWindow 42 0).
Proof.
  split.
  - apply (X4_non_number_coerced_to_zero (Number (Finite 42 0)) (String "join")
             [] two_windows).
    + solve_windows_live.
    + apply registry_sound_live. solve_registry_sound.
    + reflexivity.
  - reflexivity.
Defined.

(** ** X5: which outcome for which arguments *)

(** X5. On a platform state whose window array and registry hold live
    objects, [setWindowCollectionBehavior] never faults and its outcome
    is decided by the arguments alone: the argument error for fewer than
    two, the "number expected" error when one of the first two is not a
    number, and otherwise the boolean saying whether the 32-bit reduction
    of the first argument resolves. No call returns anything but a
    boolean. *)
Theorem X5_outcome_by_arguments (cpp : bool) (info : list napi_value)
    (a : NSApplication) :
  windows_live a → registry_live a →
  fst (SetWindowCollectionBehavior cpp info a) =
    if (length info <? 2)%nat then
      Threw (TypeError "Expected 2 arguments: windowId and behavior")
    else if is_number (nth 0 info Undefined) && is_number (nth 1 info Undefined) then
      Returned (Boolean (match resolve a (ToUint32 (coerced (nth 0 info Undefined))) with
                         | Some _ => true
                         | None => false
                         end))
    else Threw (NapiError napi_number_expected).
Proof.
  intros Hlive Hreg.
  destruct (length info <? 2)%nat eqn:Hlen.
  - rewrite (call_too_few cpp info a Hlen). reflexivity.
  - apply Nat.ltb_ge in Hlen. rewrite (call_two_arguments cpp info a Hlen).
    set (v0 := nth 0 info Undefined). set (v1 := nth 1 info Undefined).
    destruct (is_number v0 && is_number v1) eqn:Hnum.
    + apply andb_true_iff in Hnum as [H0 H1].
      rewrite (is_number_coerced v0 H0) at 1. rewrite (is_number_coerced v1 H1).
      apply (call_numbers_outcome cpp _ _ a Hlive Hreg).
    + destruct cpp.
      * rewrite (call_exceptions v0 v1 a Hnum). reflexivity.
      * rewrite (call_no_exceptions v0 v1 a Hnum). cbv zeta. cbn [fst].
        rewrite (call_numbers_outcome false _ _ a Hlive Hreg). reflexivity.
Qed.

Lemma X5_witness :
  fst (SetWindowCollectionBehavior false
         [Number (Finite 7 0); Number NaN; Null] two_windows)
  = Returned (Boolean true).
Proof.
  apply (X5_outcome_by_arguments false
           [Number (Finite 7 0); Number NaN; Null] two_windows).
  - solve_windows_live.
  - apply registry_sound_live. solve_registry_sound.
Defined.

(** ** X6: the frame of every call *)

(** X6. Whatever the arguments, the build and the outcome (a thrown error
    and a fault included), one call of [setWindowCollectionBehavior]
    keeps the window array, the registry and every window's number, adds
    and removes no window object, and changes at most one object. *)
Theorem X6_every_call_changes_at_most_one_window (cpp : bool)
    (info : list napi_value) (a : NSApplication) :
  let a' := snd (SetWindowCollectionBehavior cpp info a) in
  windows a' = windows a
  ∧ windowTable a' = windowTable a
  ∧ dom (objects a') = dom (objects a)
  ∧ (∀ p, windowNumber <$> objects a' !! p = windowNumber <$> objects a !! p)
  ∧ ∃ window, ∀ other, other ≠ window → objects a' !! other = objects a !! other.
Proof.
  cbv zeta.
  destruct (call_keeps_numbers cpp info a) as (Hwin & Htab & Hnum).
  split; [exact Hwin |]. split; [exact Htab |]. split; [| split; [exact Hnum |]].
  - apply set_eq. intros p. rewrite !elem_of_dom.
    specialize (Hnum p).
    destruct (objects (snd (SetWindowCollectionBehavior cpp info a)) !! p),
             (objects a !! p); try discriminate;
      split; intros [? ?]; try discriminate; eexists; reflexivity.
  - destruct (call_effect cpp info a)
      as [-> | (window & w & id & mask & _ & _ & _ & ->)].
    + exists nil_ptr. reflexivity.
    + exists window. intros other Hother. cbn [store_behavior objects].
      apply lookup_insert_ne. congruence.
Qed.

(** X7. A boolean result means that both leading arguments were numbers:
    in either build, no call given fewer than two arguments, or a leading
    argument that is not a number, returns normally. *)
Theorem X7_boolean_result_needs_numbers (cpp : bool) (info : list napi_value)
    (a a' : NSApplication) (v : napi_value) :
  SetWindowCollectionBehavior cpp info a = (Returned v, a') →
  (2 ≤ length info)%nat
  ∧ is_number (nth 0 info Undefined) = true
  ∧ is_number (nth 1 info Undefined) = true
  ∧ ∃ found, v = Boolean found.
Proof.
  intros Hcall.
  destruct (length info <? 2)%nat eqn:Hlen.
  { rewrite (call_too_few cpp info a Hlen) in Hcall. discriminate. }
  apply Nat.ltb_ge in Hlen. split; [exact Hlen |].
  rewrite (call_two_arguments cpp info a Hlen) in Hcall.
  set (v0 := nth 0 info Undefined) in *. set (v1 := nth 1 info Undefined) in *.
  destruct (is_number v0 && is_number v1) eqn:Hnum.
  - apply andb_true_iff in Hnum as [H0 H1].
    split; [exact H0 |]. split; [exact H1 |].
    rewrite (is_number_coerced v0 H0), (is_number_coerced v1 H1) in Hcall.
    destruct (call_cases cpp (coerced v0) (coerced v1) a)
      as [Hc | [Hc | (window & w & _ & _ & _ & Hc)]];
      rewrite Hc in Hcall; try discriminate;
      injection Hcall as <- _; eexists; reflexivity.
  - exfalso. destruct cpp.
    + rewrite (call_exceptions v0 v1 a Hnum) in Hcall. discriminate.
    + rewrite (call_no_exceptions v0 v1 a Hnum) in Hcall. cbv zeta in Hcall.
      destruct (fst (SetWindowCollectionBehavior false
                       [Number (coerced v0); Number (coerced v1)] a));
        discriminate.
Qed.

Lemma X7_witness :
  (2 ≤ length [Number (Finite 99 0); Number (Finite 18 0)])%nat
  ∧ is_number (nth 0 [Number (Finite 99 0); Number (Finite 18 0)] Undefined) = true
  ∧ is_number (nth 1 [Number (Finite 99 0); Number (Finite 18 0)] Undefined) = true
  ∧ ∃ found, Boolean false = Boolean found.
Proof.
  apply (X7_boolean_result_needs_numbers true
           [Number (Finite 99 0); Number (Finite 18 0)] two_windows two_windows
           (Boolean false)).
  reflexivity.
Defined.

(** ** What every call preserves *)

Lemma resolve_kept (cpp : bool) (info : list napi_value) (a : NSApplication)
    (id : Z) :
  resolve (snd (SetWindowCollectionBehavior cpp info a)) id = resolve a id.
Proof.
  destruct (call_keeps_numbers cpp info a) as (Hwin & Htab & Hnum).
  apply resolve_by_numbers; assumption.
Qed.

Lemma invariants_kept (cpp : bool) (info : list napi_value) (a : NSApplication) :
  windows_live a → registry_sound a →
  windows_live (snd (SetWindowCollectionBehavior cpp info a))
  ∧ registry_live (snd (SetWindowCollectionBehavior cpp info a))
  ∧ registry_sound (snd (SetWindowCollectionBehavior cpp info a)).
Proof.
  intros Hlive Hsound.
  destruct (call_keeps_numbers cpp info a) as (Hwin & Htab & Hnum).
  set (a' := snd (SetWindowCollectionBehavior cpp info a)) in *.
  assert (Hsound' : registry_sound a').
  { intros n window Hlook Hne. rewrite Htab in Hlook.
    destruct (Hsound n window Hlook Hne) as (w & Hw & Hn).
    specialize (Hnum window). rewrite Hw in Hnum.
    destruct (objects a' !! window) as [w' |]; [| discriminate].
    injection Hnum as Hnum. exists w'. split; [reflexivity | congruence]. }
  split; [| split; [apply registry_sound_live, Hsound' | exact Hsound']].
  unfold windows_live. rewrite Hwin.
  apply (Forall_impl _ _ _ Hlive). intros p [-> | Hp]; [left; reflexivity |].
  right. apply (is_Some_by_numbers a a' p (Hnum p) Hp).
Qed.

(** ** X8, X9: what the module's own mutations preserve *)

(** X8. Resolution is stable under the module's own calls: after any call
    of [setWindowCollectionBehavior], whatever its arguments and outcome,
    every id resolves to the window it resolved to before. *)
Theorem X8_resolution_stable (cpp : bool) (info : list napi_value)
    (a : NSApplication) (id : Z) :
  resolve (snd (SetWindowCollectionBehavior cpp info a)) id = resolve a id.
Proof. apply resolve_kept. Qed.

(** X9. The platform invariants the module relies on survive every call:
    if the window array holds live objects and the registry answers each
    number with a live window carrying it, the same holds afterwards. *)
Theorem X9_invariants_preserved (cpp : bool) (info : list napi_value)
    (a : NSApplication) :
  windows_live a → registry_sound a →
  windows_live (snd (SetWindowCollectionBehavior cpp info a))
  ∧ registry_live (snd (SetWindowCollectionBehavior cpp info a))
  ∧ registry_sound (snd (SetWindowCollectionBehavior cpp info a)).
Proof. apply invariants_kept. Qed.

Lemma X9_witness :
  windows_live (snd (SetWindowCollectionBehavior true
                       [Number (Finite 42 0); Number (Finite 18 0)] two_windows))
  ∧ registry_live (snd (SetWindowCollectionBehavior true
                       [Number (Finite 42 0); Number (Finite 18 0)] two_windows))
  ∧ registry_sound (snd (SetWindowCollectionBehavior true
                       [Number (Finite 42 0); Number (Finite 18 0)] two_windows)).
Proof.
  apply (X9_invariants_preserved true
           [Number (Finite 42 0); Number (Finite 18 0)] two_windows).
  - solve_windows_live.
  - solve_registry_sound.
Defined.

(** ** X10: windows the identifier type cannot name *)

(** X10. A window whose number lies outside 0 .. 2^32 - 1 (one without a
    window device, numbered -1, say) is out of reach: no call of
    [setWindowCollectionBehavior], with any arguments in either build,
    changes it. *)
Theorem X10_out_of_range_window_untouched (cpp : bool) (info : list napi_value)
    (a : NSApplication) (p : Z) (w : NSWindow) :
  registry_sound a →
  objects a !! p = Some w →
  ¬ (0 ≤ windowNumber w < 2 ^ 32) →
  objects (snd (SetWindowCollectionBehavior cpp info a)) !! p = Some w.
Proof.
  intros Hsound Hp Hrange.
  destruct (call_effect cpp info a)
    as [-> | (window & w' & id & mask & Hne & Hw' & Hnum & ->)]; [exact Hp |].
  cbn [store_behavior objects].
  destruct (decide (window = p)) as [-> | Hother].
  - exfalso. apply Hrange.
    assert (w' = w) as -> by congruence.
    assert (Hid : windowNumber w = ToUint32 id).
    { destruct Hnum as [Hnum | Htab]; [exact Hnum |].
      destruct (Hsound _ _ Htab Hne) as (w2 & Hw2 & Hn). congruence. }
    rewrite Hid. apply ToUint32_range.
  - rewrite lookup_insert_ne by exact Hother. exact Hp.
Qed.

Lemma X10_witness :
  objects (snd (SetWindowCollectionBehavior false
                  [Number (Finite (-1) 0); Number (Finite 18 0)] deferred_window))
    !! 4096
  = Some (mkNSWindow (-1) 0).
Proof.
  apply (X10_out_of_range_window_untouched false
           [Number (Finite (-1) 0); Number (Finite 18 0)] deferred_window
           4096 (mkNSWindow (-1) 0)).
  - intros n window Htab _. cbn [windowTable deferred_window] in Htab.
    rewrite lookup_empty in Htab. discriminate.
  - reflexivity.
  - cbn [windowNumber]. lia.
Defined.

(** ** Calls in sequence *)

Lemma call_numbers (cpp : bool) (id mask : JsNumber) (a : NSApplication) :
  windows_live a → registry_live a →
  SetWindowCollectionBehavior cpp [Number id; Number mask] a =
    match resolve a (ToUint32 id) with
    | Some window =>
        (Returned (Boolean true), applyBehavior window (ToUint32 mask) a)
    | None => (Returned (Boolean false), a)
    end.
Proof.
  intros Hlive Hreg.
  destruct (resolve a (ToUint32 id)) as [window |] eqn:Hres.
  - destruct (resolve_live a _ window Hreg Hres) as [_ [w Hw]].
    rewrite (call_resolved cpp id mask a window w Hlive Hres Hw).
    unfold applyBehavior. rewrite Hw. reflexivity.
  - apply (call_unresolved cpp id mask a Hlive Hres).
Qed.

Lemma applyBehavior_twice (window m1 m2 : Z) (a : NSApplication) :
  applyBehavior window m2 (applyBehavior window m1 a) = applyBehavior window m2 a.
Proof.
  unfold applyBehavior at 2 3.
  destruct (objects a !! window) as [w |] eqn:Hw.
  - unfold applyBehavior. cbn [store_behavior objects].
    rewrite lookup_insert_eq. unfold store_behavior. cbn [objects windows windowTable].
    rewrite insert_insert_eq. reflexivity.
  - unfold applyBehavior. rewrite Hw. reflexivity.
Qed.

Lemma applyBehavior_lookup_other (w1 w2 m : Z) (a : NSApplication) :
  w1 ≠ w2 → objects (applyBehavior w1 m a) !! w2 = objects a !! w2.
Proof.
  intros Hne. unfold applyBehavior.
  destruct (objects a !! w1) as [o1 |]; [| reflexivity].
  cbn [store_behavior objects]. apply lookup_insert_ne, Hne.
Qed.

Lemma applyBehavior_commute (w1 w2 m1 m2 : Z) (a : NSApplication) :
  w1 ≠ w2 →
  applyBehavior w2 m2 (applyBehavior w1 m1 a)
    = applyBehavior w1 m1 (applyBehavior w2 m2 a).
Proof.
  intros Hne.
  unfold applyBehavior at 1 3.
  rewrite (applyBehavior_lookup_other w1 w2 m1 a Hne).
  rewrite (applyBehavior_lookup_other w2 w1 m2 a (not_eq_sym Hne)).
  unfold applyBehavior.
  destruct (objects a !! w1) as [o1 |], (objects a !! w2) as [o2 |];
    try reflexivity.
  unfold store_behavior. cbn [objects windows windowTable].
  rewrite insert_insert_ne by congruence. reflexivity.
Qed.

Lemma applyBehavior_same (window m : Z) (a : NSApplication) (w : NSWindow) :
  objects a !! window = Some w →
  collectionBehavior w = m →
  applyBehavior window m a = a.
Proof.
  intros Hw Hm. unfold applyBehavior. rewrite Hw.
  unfold store_behavior, with_behavior. rewrite <- Hm.
  destruct w as [n b]. cbn [windowNumber collectionBehavior].
  rewrite (insert_id _ _ _ Hw). destruct a. reflexivity.
Qed.

(** Under a sound registry, a resolved window carries the id. *)
Lemma resolve_number (a : NSApplication) (id window : Z) :
  registry_sound a → resolve a id = Some window →
  ∃ w, objects a !! window = Some w ∧ windowNumber w = id.
Proof.
  intros Hsound. unfold resolve.
  destruct (List.find (has_number a id) (windows a)) as [q |] eqn:Hfind.
  - intros [= ->]. apply find_some in Hfind as [_ Hhit].
    destruct (has_number_live _ _ _ Hhit) as (_ & w & Hw & Hn).
    exists w. split; assumption.
  - destruct (windowTable a !! id) as [q |] eqn:Htab; [| discriminate].
    destruct (q =? nil_ptr) eqn:Hnil; [discriminate |].
    intros [= ->]. apply Z.eqb_neq in Hnil. exact (Hsound id window Htab Hnil).
Qed.

(** ** X11, X12, X13: how calls compose *)

(** X11. The last write wins: setting a mask on an id after any other
    mask was set on the same id gives the same result and the same state
    as setting it directly. With equal masks, a repeated call changes
    nothing further. *)
Theorem X11_last_write_wins (cpp : bool) (id m1 m2 : JsNumber)
    (a : NSApplication) :
  windows_live a → registry_sound a →
  SetWindowCollectionBehavior cpp [Number id; Number m2]
    (snd (SetWindowCollectionBehavior cpp [Number id; Number m1] a))
  = SetWindowCollectionBehavior cpp [Number id; Number m2] a.
Proof.
  intros Hlive Hsound.
  destruct (invariants_kept cpp [Number id; Number m1] a Hlive Hsound)
    as (Hlive' & Hreg' & _).
  rewrite (call_numbers cpp id m2 _ Hlive' Hreg'), resolve_kept.
  rewrite (call_numbers cpp id m1 a Hlive (registry_sound_live a Hsound)).
  rewrite (call_numbers cpp id m2 a Hlive (registry_sound_live a Hsound)).
  destruct (resolve a (ToUint32 id)) as [window |]; [| reflexivity].
  cbn [snd]. rewrite applyBehavior_twice. reflexivity.
Qed.

Lemma X11_witness :
  SetWindowCollectionBehavior true [Number (Finite 42 0); Number (Finite 3 0)]
    (snd (SetWindowCollectionBehavior true
            [Number (Finite 42 0); Number (Finite 18 0)] two_windows))
  = SetWindowCollectionBehavior true
      [Number (Finite 42 0); Number (Finite 3 0)] two_windows.
Proof.
  apply (X11_last_write_wins true (Finite 42 0) (Finite 18 0) (Finite 3 0)
           two_windows).
  - solve_windows_live.
  - solve_registry_sound.
Defined.

(** X12. Calls on different ids commute: when the 32-bit reductions of
    two ids differ, each call answers as it would alone, and the two
    orders leave the same state. *)
Theorem X12_different_ids_commute (cpp : bool) (id1 id2 m1 m2 : JsNumber)
    (a : NSApplication) :
  windows_live a → registry_sound a →
  ToUint32 id1 ≠ ToUint32 id2 →
  fst (SetWindowCollectionBehavior cpp [Number id2; Number m2]
         (snd (SetWindowCollectionBehavior cpp [Number id1; Number m1] a)))
  = fst (SetWindowCollectionBehavior cpp [Number id2; Number m2] a)
  ∧ snd (SetWindowCollectionBehavior cpp [Number id2; Number m2]
           (snd (SetWindowCollectionBehavior cpp [Number id1; Number m1] a)))
    = snd (SetWindowCollectionBehavior cpp [Number id1; Number m1]
             (snd (SetWindowCollectionBehavior cpp [Number id2; Number m2] a))).
Proof.
  intros Hlive Hsound Hids.
  pose proof (registry_sound_live a Hsound) as Hreg.
  destruct (invariants_kept cpp [Number id1; Number m1] a Hlive Hsound)
    as (Hlive1 & Hreg1 & _).
  destruct (invariants_kept cpp [Number id2; Number m2] a Hlive Hsound)
    as (Hlive2 & Hreg2 & _).
  rewrite (call_numbers cpp id2 m2 _ Hlive1 Hreg1), resolve_kept.
  rewrite (call_numbers cpp id1 m1 _ Hlive2 Hreg2), resolve_kept.
  rewrite (call_numbers cpp id1 m1 a Hlive Hreg).
  rewrite (call_numbers cpp id2 m2 a Hlive Hreg).
  destruct (resolve a (ToUint32 id1)) as [w1 |] eqn:H1,
           (resolve a (ToUint32 id2)) as [w2 |] eqn:H2;
    cbn [fst snd]; split; try reflexivity.
  apply applyBehavior_commute. intros ->.
  destruct (resolve_number a _ _ Hsound H1) as (o1 & Ho1 & Hn1).
  destruct (resolve_number a _ _ Hsound H2) as (o2 & Ho2 & Hn2).
  apply Hids. congruence.
Qed.

Lemma X12_witness :
  fst (SetWindowCollectionBehavior true [Number (Finite 7 0); Number (Finite 3 0)]
         (snd (SetWindowCollectionBehavior true
                 [Number (Finite 42 0); Number (Finite 18 0)] two_windows)))
  = fst (SetWindowCollectionBehavior true
           [Number (Finite 7 0); Number (Finite 3 0)] two_windows)
  ∧ snd (SetWindowCollectionBehavior true [Number (Finite 7 0); Number (Finite 3 0)]
           (snd (SetWindowCollectionBehavior true
                   [Number (Finite 42 0); Number (Finite 18 0)] two_windows)))
    = snd (SetWindowCollectionBehavior true
             [Number (Finite 42 0); Number (Finite 18 0)]
             (snd (SetWindowCollectionBehavior true
                     [Number (Finite 7 0); Number (Finite 3 0)] two_windows))).
Proof.
  apply (X12_different_ids_commute true (Finite 42 0) (Finite 7 0)
           (Finite 18 0) (Finite 3 0) two_windows).
  - solve_windows_live.
  - solve_registry_sound.
  - vm_compute. discriminate.
Defined.

(** X13. Setting the flags a window already has is a successful no-op:
    the call returns [true] and the application is exactly as before. *)
Theorem X13_same_mask_changes_nothing (cpp : bool) (id mask : JsNumber)
    (a : NSApplication) (window : Z) (w : NSWindow) :
  windows_live a →
  resolve a (ToUint32 id) = Some window →
  objects a !! window = Some w →
  collectionBehavior w = ToUint32 mask →
  SetWindowCollectionBehavior cpp [Number id; Number mask] a
    = (Returned (Boolean true), a).
Proof.
  intros Hlive Hres Hw Hsame.
  rewrite (call_resolved cpp id mask a window w Hlive Hres Hw).
  f_equal. pose proof (applyBehavior_same window _ a w Hw Hsame) as Happly.
  unfold applyBehavior in Happly. rewrite Hw in Happly. exact Happly.
Qed.

Lemma X13_witness :
  SetWindowCollectionBehavior false
    [Number (Finite 7 0); Number (Finite 4 0)] two_windows
  = (Returned (Boolean true), two_windows).
Proof.
  apply (X13_same_mask_changes_nothing false (Finite 7 0) (Finite 4 0)
           two_windows 8192 (mkNSWindow 7 4)).
  - solve_windows_live.
  - reflexivity.
  - reflexivity.
  - reflexivity.
Defined.

(** ** X14: arguments are seen through their 32-bit reductions *)

Lemma call_by_reductions (cpp : bool) (id id' mask mask' : JsNumber)
    (a : NSApplication) :
  ToUint32 id = ToUint32 id' →
  ToUint32 mask = ToUint32 mask' →
  SetWindowCollectionBehavior cpp [Number id; Number mask] a
    = SetWindowCollectionBehavior cpp [Number id'; Number mask'] a.
Proof.
  intros Hid Hmask. unfold SetWindowCollectionBehavior, call.
  rewrite !body_numbers, Hid, Hmask. reflexivity.
Qed.

(** X14. The two numbers are observed only through [Uint32Value]: two
    calls whose ids, and whose masks, denote integers congruent modulo
    2^32 return the same value and leave the same state, on every
    application state and in either build. *)
Theorem X14_congruent_arguments_indistinguishable (cpp : bool)
    (id id' mask mask' : JsNumber) (i i' m m' : Z) (a : NSApplication) :
  integer_value id = Some i → integer_value id' = Some i' →
  integer_value mask = Some m → integer_value mask' = Some m' →
  i mod 2 ^ 32 = i' mod 2 ^ 32 →
  m mod 2 ^ 32 = m' mod 2 ^ 32 →
  SetWindowCollectionBehavior cpp [Number id; Number mask] a
    = SetWindowCollectionBehavior cpp [Number id'; Number mask'] a.
Proof.
  intros Hi Hi' Hm Hm' Hic Hmc. apply call_by_reductions.
  - rewrite (ToUint32_integer id i Hi), (ToUint32_integer id' i' Hi'). exact Hic.
  - rewrite (ToUint32_integer mask m Hm), (ToUint32_integer mask' m' Hm'). exact Hmc.
Qed.

Lemma X14_witness :
  SetWindowCollectionBehavior true
    [Number (Finite (-4294967254) 0); Number (Finite 9 1)] two_windows
  = SetWindowCollectionBehavior true
      [Number (Finite 42 0); Number (Finite 18 0)] two_windows.
Proof.
  apply (X14_congruent_arguments_indistinguishable true
           (Finite (-4294967254) 0) (Finite 42 0) (Finite 9 1) (Finite 18 0)
           (-4294967254) 42 18 18 two_windows);
    reflexivity.
Defined.

(** X15. A numeric argument that is not an integer is rounded toward
    zero, and one that is not finite counts as 0: NaN and the infinities
    in the id position behave exactly as the id 0, and in the mask
    position exactly as the mask 0; a fraction [m / 2^k] behaves as its
    integer part. *)
Theorem X15_non_integers_truncated (cpp : bool) (x other : JsNumber)
    (a : NSApplication) :
  let reduced :=
    match x with
    | Finite m e => if 0 <=? e then Finite m e else Finite (Z.quot m (2 ^ (- e))) 0
    | _ => Finite 0 0
    end in
  SetWindowCollectionBehavior cpp [Number x; Number other] a
    = SetWindowCollectionBehavior cpp [Number reduced; Number other] a
  ∧ SetWindowCollectionBehavior cpp [Number other; Number x] a
    = SetWindowCollectionBehavior cpp [Number other; Number reduced] a.
Proof.
  cbv zeta.
  assert (Hred : ToUint32 x =
                 ToUint32 match x with
                          | Finite m e =>
                              if 0 <=? e then Finite m e
                              else Finite (Z.quot m (2 ^ (- e))) 0
                          | _ => Finite 0 0
                          end).
  { destruct x as [| neg | m e]; try reflexivity.
    destruct (0 <=? e) eqn:He; [reflexivity |].
    cbn [ToUint32]. unfold truncate. rewrite He. cbn [Z.leb Z.compare].
    rewrite Z.pow_0_r, Z.mul_1_r. reflexivity. }
  split; apply call_by_reductions; (exact Hred || reflexivity).
Qed.

(** * The handle decoder on every handle *)

(** The decoder on a buffer, one case per exit. *)
Lemma decoder_buffer (cpp : bool) (bytes : list byte) (a : NSApplication) :
  GetNSWindowFromHandle cpp [Buffer bytes] a =
    (match load_pointer (Some bytes) with
     | None => Fault
     | Some window =>
         if window =? nil_ptr then Returned Null
         else match objects a !! window with
              | Some w => Returned (Number (double_of_integer (windowNumber w)))
              | None => Fault
              end
     end, a).
Proof.
  unfold GetNSWindowFromHandle, call, GetNSWindowFromHandle_body, Buffer_Data.
  cbn [length Nat.ltb Nat.leb nth].
  unfold bind at 1. unfold ret at 1. unfold bind at 1. unfold deref_window.
  destruct (load_pointer (Some bytes)) as [window |]; [| reflexivity].
  unfold ret at 1. destruct (window =? nil_ptr) eqn:Hnil; cbn [negb]; [reflexivity |].
  unfold bind, msg_windowNumber, return_. rewrite Hnil. cbn [app].
  destruct (objects a !! window); reflexivity.
Qed.

(** The decoder on an argument that is not a buffer. *)
Lemma decoder_not_buffer (cpp : bool) (v : napi_value) (a : NSApplication) :
  is_buffer v = false →
  GetNSWindowFromHandle cpp [v] a =
    (if cpp then Threw (NapiError napi_invalid_arg) else Fault, a).
Proof.
  intros Hv.
  unfold GetNSWindowFromHandle, call, GetNSWindowFromHandle_body, Buffer_Data.
  cbn [length Nat.ltb Nat.leb nth].
  destruct v, cpp; try discriminate; reflexivity.
Qed.

Lemma decoder_first_argument (cpp : bool) (v : napi_value)
    (surplus : list napi_value) (a : NSApplication) :
  GetNSWindowFromHandle cpp (v :: surplus) a = GetNSWindowFromHandle cpp [v] a.
Proof. reflexivity. Qed.

(** The decoder's answer depends on the application only through the
    window numbers of its objects. *)
Lemma decoder_by_numbers (cpp : bool) (info : list napi_value)
    (a a' : NSApplication) :
  (∀ p, windowNumber <$> objects a' !! p = windowNumber <$> objects a !! p) →
  fst (GetNSWindowFromHandle cpp info a') = fst (GetNSWindowFromHandle cpp info a).
Proof.
  intros Hnum. destruct info as [| v surplus]; [reflexivity |].
  rewrite !(decoder_first_argument cpp v surplus).
  destruct (is_buffer v) eqn:Hv.
  - destruct v; try discriminate. rewrite !decoder_buffer. cbn [fst].
    destruct (load_pointer (Some bytes)) as [window |]; [| reflexivity].
    destruct (window =? nil_ptr); [reflexivity |].
    specialize (Hnum window).
    destruct (objects a' !! window) as [w' |], (objects a !! window) as [w |];
      try discriminate; [| reflexivity].
    injection Hnum as ->. reflexivity.
  - rewrite !(decoder_not_buffer cpp v _ Hv). reflexivity.
Qed.

(** ** Little-endian loads *)





(** ** X16 - X21: what the decoder does with a handle *)



(** X17. Only the first 8 bytes of the handle are read: a buffer of at
    least 8 bytes decodes exactly as its 8-byte prefix does. *)
Theorem X17_handle_prefix_decides (cpp : bool) (bytes : list byte)
    (a : NSApplication) :
  (8 ≤ length bytes)%nat →
  GetNSWindowFromHandle cpp [Buffer bytes] a
    = GetNSWindowFromHandle cpp [Buffer (take 8 bytes)] a.
Proof.
  intros Hlen. rewrite !decoder_buffer. unfold load_pointer.
  rewrite length_take, take_take.
  assert (H1 : (length bytes <? 8)%nat = false) by (apply Nat.ltb_ge; lia).
  assert (H2 : (8 `min` length bytes <? 8)%nat = false) by (apply Nat.ltb_ge; lia).
  rewrite H1, H2. reflexivity.
Qed.

Lemma X17_witness :
  GetNSWindowFromHandle false [Buffer (handle_A ++ [xff; xff])] two_windows
  = GetNSWindowFromHandle false [Buffer (take 8 (handle_A ++ [xff; xff]))] two_windows.
Proof.
  apply (X17_handle_prefix_decides false (handle_A ++ [xff; xff]) two_windows).
  cbn [length handle_A List.app]. lia.
Defined.

(** X18. For a handle that embeds a pointer to a live window object, the
    decoder answers that object's window number exactly whenever the
    number has magnitude below 2^53, negative numbers included, and
    whether or not the window is in the window array or the registry. *)
Theorem X18_decoder_answers_window_number (cpp : bool) (bytes : list byte)
    (a : NSApplication) (window : Z) (w : NSWindow) :
  load_pointer (Some bytes) = Some window →
  window ≠ nil_ptr →
  objects a !! window = Some w →
  Z.abs (windowNumber w) < 2 ^ 53 →
  GetNSWindowFromHandle cpp [Buffer bytes] a
    = (Returned (Number (Finite (windowNumber w) 0)), a).
Proof.
  intros Hload Hne Hw Hsmall. rewrite decoder_buffer, Hload.
  apply Z.eqb_neq in Hne. rewrite Hne, Hw.
  rewrite (double_of_integer_exact _ Hsmall). reflexivity.
Qed.

Lemma X18_witness :
  GetNSWindowFromHandle true [Buffer handle_deferred] deferred_window
  = (Returned (Number (Finite (-1) 0)), deferred_window).
Proof.
  apply (X18_decoder_answers_window_number true handle_deferred deferred_window
           4096 (mkNSWindow (-1) 0)).
  - reflexivity.
  - discriminate.
  - reflexivity.
  - cbn [windowNumber]. lia.
Defined.



(** X20. An argument that is not a buffer never yields a window number:
    built with C++ exceptions the decoder throws the N-API "invalid
    argument" error; built without, the failed [Data()] leaves a null
    pointer that line 60 dereferences, and the call faults. *)
Theorem X20_decoder_rejects_non_buffer (cpp : bool) (v : napi_value)
    (surplus : list napi_value) (a : NSApplication) :
  is_buffer v = false →
  GetNSWindowFromHandle cpp (v :: surplus) a
    = (if cpp then Threw (NapiError napi_invalid_arg) else Fault, a).
Proof.
  intros Hv. rewrite decoder_first_argument. apply decoder_not_buffer, Hv.
Qed.

Lemma X20_witness :
  GetNSWindowFromHandle true [Number (Finite 42 0)] two_windows
  = (Threw (NapiError napi_invalid_arg), two_windows).
Proof.
  apply (X20_decoder_rejects_non_buffer true (Number (Finite 42 0)) [] two_windows).
  reflexivity.
Defined.



(** ** X22: the setter does not disturb the decoder *)

(** X22. What the decoder answers for a handle does not depend on the
    collection behaviors set so far: after any call of
    [setWindowCollectionBehavior], every argument list decodes to the
    outcome it had before. *)
Theorem X22_decoder_unaffected_by_setter (cpp cpp' : bool)
    (handle info : list napi_value) (a : NSApplication) :
  fst (GetNSWindowFromHandle cpp handle
         (snd (SetWindowCollectionBehavior cpp' info a)))
  = fst (GetNSWindowFromHandle cpp handle a).
Proof.
  apply decoder_by_numbers.
  apply (call_keeps_numbers cpp' info a).
Qed.

(** ** X23: window numbers beyond 53 bits *)

(** The conversion to a double is off by at most half a unit in the last
    place. *)
Lemma double_of_integer_error (n : Z) :
  ∃ n', integer_value (double_of_integer n) = Some n'
        ∧ Z.abs (n' - n) ≤ 2 ^ (Z.log2 (Z.abs n) - 53).
Proof.
  unfold double_of_integer.
  destruct (Z.log2 (Z.abs n) - 52 <=? 0) eqn:Hk.
  - exists n. split.
    + cbn [integer_value]. cbn [Z.leb Z.compare]. rewrite Z.pow_0_r, Z.mul_1_r.
      reflexivity.
    + rewrite Z.sub_diag. cbn [Z.abs]. apply Z.pow_nonneg. lia.
  - apply Z.leb_gt in Hk.
    set (k := Z.log2 (Z.abs n) - 52) in *.
    set (a := Z.abs n) in *.
    assert (Ha : 0 ≤ a) by apply Z.abs_nonneg.
    assert (Hpow : 2 ^ k = 2 * 2 ^ (k - 1)).
    { replace k with (1 + (k - 1)) at 1 by lia. rewrite Z.pow_add_r by lia.
      reflexivity. }
    assert (Hhalf : 0 < 2 ^ (k - 1)) by (apply Z.pow_pos_nonneg; lia).
    rewrite Z.shiftr_div_pow2 by lia. rewrite Z.land_ones by lia.
    pose proof (Z.div_mod a (2 ^ k) ltac:(lia)) as Hdiv.
    pose proof (Z.mod_pos_bound a (2 ^ k) ltac:(lia)) as Hmod.
    set (q := a / 2 ^ k) in *. set (r := a mod 2 ^ k) in *.
    replace (Z.log2 a - 53) with (k - 1) by (unfold k; lia).
    assert (Hk0 : (0 <=? k) = true) by (apply Z.leb_le; lia).
    assert (Hn : n = Z.sgn n * a) by (unfold a; rewrite Z.mul_comm, Z.abs_sgn; reflexivity).
    assert (Hsgn : Z.sgn n = 1 ∨ Z.sgn n = -1 ∨ (Z.sgn n = 0 ∧ a = 0)).
    { destruct n; cbn; auto. }
    destruct ((2 ^ (k - 1) <? r) || (r =? 2 ^ (k - 1)) && Z.odd q) eqn:Hup.
    + eexists. split; [cbn [integer_value]; rewrite Hk0; reflexivity |].
      assert (Hr : 2 ^ (k - 1) ≤ r).
      { apply orb_true_iff in Hup as [Hup | Hup].
        - apply Z.ltb_lt in Hup. lia.
        - apply andb_true_iff in Hup as [Hup _]. apply Z.eqb_eq in Hup. lia. }
      rewrite Hn at 2.
      destruct Hsgn as [-> | [-> | [-> ->]]]; nia.
    + eexists. split; [cbn [integer_value]; rewrite Hk0; reflexivity |].
      assert (Hr : r ≤ 2 ^ (k - 1)).
      { apply orb_false_iff in Hup as [Hup _]. apply Z.ltb_ge in Hup. exact Hup. }
      rewrite Hn at 2.
      destruct Hsgn as [-> | [-> | [-> ->]]]; nia.
Qed.

(** X23. For a live window whose number is any 64-bit signed integer, the
    decoder answers a number denoting an integer within 512 of the window
    number: the conversion to a JavaScript number at line 63 rounds
    numbers of more than 53 bits but never fails. *)
Theorem X23_decoder_answer_within_rounding (cpp : bool) (bytes : list byte)
    (a : NSApplication) (window : Z) (w : NSWindow) :
  load_pointer (Some bytes) = Some window →
  window ≠ nil_ptr →
  objects a !! window = Some w →
  - 2 ^ 63 ≤ windowNumber w < 2 ^ 63 →
  ∃ x n',
    GetNSWindowFromHandle cpp [Buffer bytes] a = (Returned (Number x), a)
    ∧ integer_value x = Some n'
    ∧ Z.abs (n' - windowNumber w) ≤ 512.
Proof.
  intros Hload Hne Hw Hrange.
  exists (double_of_integer (windowNumber w)).
  destruct (Z.eq_dec (windowNumber w) (- 2 ^ 63)) as [Hmin | Hmin].
  - exists (windowNumber w). split; [| split].
    + rewrite decoder_buffer, Hload. apply Z.eqb_neq in Hne. rewrite Hne, Hw.
      reflexivity.
    + rewrite Hmin. reflexivity.
    + rewrite Z.sub_diag. cbn [Z.abs]. lia.
  - destruct (double_of_integer_error (windowNumber w)) as (n' & Hval & Herr).
    exists n'. split; [| split; [exact Hval |]].
    + rewrite decoder_buffer, Hload. apply Z.eqb_neq in Hne. rewrite Hne, Hw.
      reflexivity.
    + etransitivity; [exact Herr |].
      destruct (Z.eq_dec (Z.abs (windowNumber w)) 0) as [-> | Hnz].
      * cbn. lia.
      * assert (Hlog : Z.log2 (Z.abs (windowNumber w)) < 63)
          by (apply Z.log2_lt_pow2; lia).
        change 512 with (2 ^ 9).
        destruct (Z.le_gt_cases 0 (Z.log2 (Z.abs (windowNumber w)) - 53)) as [Hpos | Hneg].
        -- apply Z.pow_le_mono_r; lia.
        -- rewrite Z.pow_neg_r by lia. lia.
Qed.

Lemma X23_witness :
  ∃ x n',
    GetNSWindowFromHandle true [Buffer handle_A] wide_number_window
      = (Returned (Number x), wide_number_window)
    ∧ integer_value x = Some n'
    ∧ Z.abs (n' - 9007199254740993) ≤ 512.
Proof.
  apply (X23_decoder_answer_within_rounding true handle_A wide_number_window
           4096 (mkNSWindow 9007199254740993 0)).
  - reflexivity.
  - discriminate.
  - reflexivity.
  - cbn [windowNumber]. lia.
Defined.
